(** * guppy: the Elasticsearch access layer and the tier-access middleware

    A shallow embedding of [ES] (the class of the Elasticsearch service
    module: [query], [scrollQuery], [_getESFieldsTypes],
    [_getMappingsForAllIndices], [_getArrayFieldsFromConfigIndex],
    [initialize], [getESFields], [getESIndexByType], [isArrayField],
    [filterData], [getCount], [getData], [downloadData]) and of
    [server/middlewares/tierAccessMiddleware/index.js].

    JavaScript values are an inductive type, JavaScript objects are
    association lists that keep the insertion order of their keys and
    are read through the properties [Object.prototype] lends them, the
    Elasticsearch client is a deterministic machine whose calls are
    recorded in a trace, exceptions are a result type, and [async]
    functions are computations in a state-and-exception monad. *)

From Stdlib Require Import ZArith List String Ascii Bool Lia DecimalString.
Import ListNotations.
Local Open Scope string_scope.
Local Open Scope Z_scope.

(* ================================================================== *)
(** ** JavaScript values and objects *)

#[warnings="-register-all"]
Inductive value : Type :=
| VUndefined
| VNull
| VBool (b : bool)
| VNum (z : Z)
| VStr (s : string)
| VArr (items : list value)
| VObj (props : list (string * value)).

(** [!!v]: the values JavaScript treats as true in a condition. *)
Definition truthy (v : value) : bool :=
  match v with
  | VUndefined | VNull => false
  | VBool b => b
  | VNum z => negb (z =? 0)
  | VStr s => negb (s =? "")%string
  | VArr _ | VObj _ => true
  end.

(** [typeof v === 'undefined'] *)
Definition is_undefined (v : value) : bool :=
  match v with VUndefined => true | _ => false end.

(** [typeof v === 'undefined' || v === null] *)
Definition is_nullish (v : value) : bool :=
  match v with VUndefined | VNull => true | _ => false end.

(** Decimal text of an integer, as a template literal prints it. *)
Definition dec (z : Z) : string := NilZero.string_of_int (Z.to_int z).

(** [String(v)], the conversion a template literal and a computed
    property key apply. *)
Fixpoint to_str (v : value) : string :=
  match v with
  | VUndefined => "undefined"
  | VNull => "null"
  | VBool true => "true"
  | VBool false => "false"
  | VNum z => dec z
  | VStr s => s
  | VArr items =>
      String.concat ","
        (map (fun x => match x with
                       | VUndefined | VNull => ""
                       | _ => to_str x
                       end) items)
  | VObj _ => "[object Object]"
  end.

(** A JavaScript object used as a dictionary: keys in insertion order,
    no key twice. *)
Definition obj (A : Type) : Type := list (string * A).

Fixpoint obj_get {A} (k : string) (o : obj A) : option A :=
  match o with
  | [] => None
  | (k', a) :: rest => if (k' =? k)%string then Some a else obj_get k rest
  end.

(** [o[k] = a]: an existing key keeps its place, a new key goes last.
    (Under the key [__proto__] JavaScript sets the prototype of [o] and
    adds no key: the objects here are taken to be filled under other
    keys, and the statements about reads through the prototype say
    so.) *)
Fixpoint obj_set {A} (k : string) (a : A) (o : obj A) : obj A :=
  match o with
  | [] => [(k, a)]
  | (k', a') :: rest =>
      if (k' =? k)%string then (k', a) :: rest else (k', a') :: obj_set k a rest
  end.

(** [Object.keys(o)] *)
Definition obj_keys {A} (o : obj A) : list string := map fst o.

(** The property names an object made by [{}] inherits from
    [Object.prototype]. *)
Definition Object_prototype_names : list string :=
  ["constructor"; "__defineGetter__"; "__defineSetter__"; "hasOwnProperty";
   "__lookupGetter__"; "__lookupSetter__"; "isPrototypeOf";
   "propertyIsEnumerable"; "toString"; "valueOf"; "__proto__";
   "toLocaleString"].

Definition inherited (k : string) : bool :=
  existsb (fun name => (name =? k)%string) Object_prototype_names.

(** What [o[k]] reads from an object made by [{}]: the object's own
    property; failing that, the property [Object.prototype] has under
    that name; failing that, undefined. An inherited property is one of
    the built-in functions ([Object] for [constructor], ...) or, for
    [__proto__], [Object.prototype] itself: a truthy value that has no
    [fields], [includes] or [push], and no enumerable key. *)
Inductive property (A : Type) : Type :=
| Own (a : A)
| Inherited
| Undefined.
Arguments Own {A} a.
Arguments Inherited {A}.
Arguments Undefined {A}.

Definition obj_read {A} (k : string) (o : obj A) : property A :=
  match obj_get k o with
  | Some a => Own a
  | None => if inherited k then Inherited else Undefined
  end.

(** [{ ...o1, ...o2 }] continued onto an object under construction. *)
Definition obj_spread {A} (acc : obj A) (o : obj A) : obj A :=
  fold_left (fun acc kv => obj_set (fst kv) (snd kv) acc) o acc.

(** [arr.includes(field)] for a string [field]: SameValueZero equates a
    string only with the same string. *)
Definition includes (field : string) (arr : list value) : bool :=
  existsb (fun v => match v with
                    | VStr s => (s =? field)%string
                    | _ => false
                    end) arr.

(** [_.difference(fields, known)]: the elements of [fields], in order and
    with their repetitions, that are not in [known]; an argument that is
    not an array counts as empty. *)
Definition difference (fields : option (list string)) (known : list string)
  : list string :=
  match fields with
  | None => []
  | Some fs =>
      List.filter (fun f => negb (existsb (fun k => (k =? f)%string) known)) fs
  end.

(** The double quote character, and a line feed. *)
Definition dquote : string := String "034"%char EmptyString.
Definition nl : string := String "010"%char EmptyString.

(* ================================================================== *)
(** ** Exceptions *)

Inductive Error : Type :=
| UserInputError (msg : string)          (* apollo-server's UserInputError *)
| CodedError (code : Z) (msg : string)   (* utils/error *)
| JsError (msg : string)                 (* new Error(msg) *)
| TypeError                              (* raised by the runtime *)
| Rejection (msg : string).              (* the client's own error object *)

Inductive Result (A : Type) : Type :=
| Ok (a : A)
| Throw (e : Error).
Arguments Ok {A} a.
Arguments Throw {A} e.

(** What the spec calls InvalidInput: apollo's [UserInputError] and a
    [CodedError] with status 400. *)
Definition is_InvalidInput (e : Error) : bool :=
  match e with
  | UserInputError _ => true
  | CodedError code _ => code =? 400
  | _ => false
  end.

(* ================================================================== *)
(** ** The Elasticsearch client *)

Module Hit.
Record t : Type := { _id : string; _source : value }.
End Hit.

Module Hits.
Record t : Type := { total : Z; hits : list Hit.t }.
End Hits.

(** [resp.body] of a search or scroll response. *)
Module Body.
Record t : Type := { _scroll_id : option string; hits : Hits.t }.
End Body.

(** The argument of [client.search]. *)
Module Search.
Record params : Type := {
  index : string;
  type : option string;
  body : value;
  scroll : option string;
  size : option Z;
  _source : option (list string);
  sort : option (list string)
}.
End Search.

(** [resp.body] of [indices.getMapping]: alias -> [mappings] by type ->
    [properties] by field -> [type] of the field (absent for a field
    that has none). *)
Definition MappingBody : Type := obj (obj (obj (option string))).

Inductive Call : Type :=
| CSearch (p : Search.params)
| CScroll (scroll_id : option string) (scroll : string)
| CClearScroll (scroll_id : option string)
| CGetMapping (index type : string).

(** A promise of the client settles one way or the other. *)
Inductive Reply (A : Type) : Type :=
| Resolve (a : A)
| Reject (message : string).
Arguments Resolve {A} a.
Arguments Reject {A} message.

(** The client over an engine in state [E]. *)
Record Client (E : Type) : Type := {
  search : Search.params -> E -> Reply Body.t * E;
  scroll : option string -> string -> E -> Reply Body.t * E;
  clearScroll : option string -> E -> Reply unit * E;
  getMapping : string -> string -> E -> Reply MappingBody * E
}.
Arguments search {E} c.
Arguments scroll {E} c.
Arguments clearScroll {E} c.
Arguments getMapping {E} c.

(** The engine together with the calls made so far, oldest first. *)
Record World (E : Type) : Type := { engine : E; calls : list Call }.
Arguments engine {E} w.
Arguments calls {E} w.
Arguments Build_World {E} engine calls.

(** An [async] function: it may call the client and may throw. *)
Definition M (E A : Type) : Type := World E -> Result A * World E.

Definition ret {E A} (a : A) : M E A := fun w => (Ok a, w).
Definition throw {E A} (e : Error) : M E A := fun w => (Throw e, w).
Definition bind {E A B} (m : M E A) (k : A -> M E B) : M E B :=
  fun w => match m w with
           | (Ok a, w') => k a w'
           | (Throw e, w') => (Throw e, w')
           end.
(** A synchronous call that may throw, used inside an [async] body. *)
Definition lift {E A} (r : Result A) : M E A := fun w => (r, w).

Notation "x <- m ;; k" := (bind m (fun x => k))
  (at level 61, m at next level, right associativity).

(** Issue one call: log it, let the engine answer. *)
Definition call {E A} (c : Call) (f : E -> Reply A * E) : M E (Reply A) :=
  fun w => let (r, e') := f (engine w) in
           (Ok r, {| engine := e'; calls := (calls w ++ [c])%list |}).

(** [await p]: a rejected promise throws the client's error. *)
Definition await {E A} (c : Call) (f : E -> Reply A * E) : M E A :=
  r <- call c f ;;
  match r with
  | Resolve a => ret a
  | Reject msg => throw (Rejection msg)
  end.

(** [p.then(x => x, err => { throw new Error(err.message) })] *)
Definition await_wrapped {E A} (c : Call) (f : E -> Reply A * E) : M E A :=
  r <- call c f ;;
  match r with
  | Resolve a => ret a
  | Reject msg => throw (JsError msg)
  end.

(** Synchronous code that may throw. *)
Definition rbind {A B} (r : Result A) (k : A -> Result B) : Result B :=
  match r with
  | Ok a => k a
  | Throw e => Throw e
  end.

(** [await Promise.all(ps)]: every promise of [ps] has been started, in
    order, before the wait; the wait throws if one of them is rejected
    (here: the first one of the list). *)
Fixpoint promise_all {E A} (ps : list (M E A)) : M E (list A) :=
  fun w =>
    match ps with
    | [] => (Ok [], w)
    | p :: rest =>
        let (r, w1) := p w in
        let (rs, w2) := promise_all rest w1 in
        (match r, rs with
         | Ok a, Ok l => Ok (a :: l)
         | Throw e, _ => Throw e
         | Ok _, Throw e => Throw e
         end, w2)
    end.

(* ================================================================== *)
(** ** Configuration and the state of the [ES] instance *)

(** One entry of [config.esConfig.indices]. *)
Module IndexCfg.
Record t : Type := { index : string; type : string }.
End IndexCfg.

(** What [config.indices] may hold: nothing, a number, or the list. *)
Inductive indices_cfg : Type :=
| IndicesUndefined
| IndicesNum (n : Z)
| IndicesList (l : list IndexCfg.t).

Record EsConfig : Type := {
  host : string;
  indices : indices_cfg;
  configIndex : option string
}.

(** [this.fieldTypes]: index -> field -> type (absent when the mapping
    gives the field no [type]). *)
Definition FieldTypes : Type := obj (obj (option string)).

(** [this.arrayFields]: index -> the fields pushed for it. *)
Definition ArrayFields : Type := obj (list value).

(** [this]; [fieldTypes] and [arrayFields] are undefined until
    [initialize] has set them. *)
Record ES : Type := {
  config : EsConfig;
  fieldTypes : option FieldTypes;
  arrayFields : option ArrayFields
}.

(** One entry of the object [getESFields] builds. *)
Module IndexFields.
Record t : Type := { index : string; type : string; fields : list string }.
End IndexFields.

(** [getESFields] returns the whole object, or what [res[esIndex]]
    reads: one entry of it, undefined for a name the object neither has
    nor inherits, and the property of [Object.prototype] for a name it
    inherits. *)
Inductive fields_answer : Type :=
| AllIndices (res : obj IndexFields.t)
| ForIndex (entry : option IndexFields.t)
| PrototypeProperty (name : string).

(** [this.config.indices.forEach(cfg => { res[cfg.index] = ... })] *)
Fixpoint getESFields_loop (ft : option FieldTypes) (l : list IndexCfg.t)
    (res : obj IndexFields.t) : Result (obj IndexFields.t) :=
  match l with
  | [] => Ok res
  | cfg :: rest =>
      match ft with
      | None => Throw TypeError
      | Some ft' =>
          match obj_read (IndexCfg.index cfg) ft' with
          | Undefined => Throw TypeError  (* Object.keys(undefined) *)
          | Own types =>
              getESFields_loop ft rest
                (obj_set (IndexCfg.index cfg)
                   {| IndexFields.index := IndexCfg.index cfg;
                      IndexFields.type := IndexCfg.type cfg;
                      IndexFields.fields := obj_keys types |} res)
          | Inherited =>                  (* no enumerable key *)
              getESFields_loop ft rest
                (obj_set (IndexCfg.index cfg)
                   {| IndexFields.index := IndexCfg.index cfg;
                      IndexFields.type := IndexCfg.type cfg;
                      IndexFields.fields := [] |} res)
          end
      end
  end.

Definition getESFields (this : ES) (esIndex : option string)
  : Result fields_answer :=
  match indices (config this) with
  | IndicesList l =>
      rbind (getESFields_loop (fieldTypes this) l [])
        (fun res =>
           match esIndex with
           | None => Ok (AllIndices res)
           | Some i =>
               match obj_read i res with
               | Own entry => Ok (ForIndex (Some entry))
               | Undefined => Ok (ForIndex None)
               | Inherited => Ok (PrototypeProperty i)
               end
           end)
  | _ => Throw TypeError                  (* no forEach to call *)
  end.

Definition getESFieldTypeMappingByIndex (this : ES) (esIndex : string)
  : Result (property (obj (option string))) :=
  match fieldTypes this with
  | None => Throw TypeError
  | Some ft => Ok (obj_read esIndex ft)
  end.

Definition getESIndexByType (this : ES) (esType : string) : Result string :=
  match indices (config this) with
  | IndicesList l =>
      match find (fun i => (IndexCfg.type i =? esType)%string) l with
      | Some i => Ok (IndexCfg.index i)
      | None =>
          Throw (CodedError 400
                   ("Invalid es type: " ++ dquote ++ esType ++ dquote))
      end
  | _ => Throw TypeError
  end.

(** [this.arrayFields[esIndex] && this.arrayFields[esIndex].includes(field)] *)
Definition isArrayField (this : ES) (esIndex field : string) : Result value :=
  match arrayFields this with
  | None => Throw TypeError
  | Some af =>
      match obj_read esIndex af with
      | Undefined => Ok VUndefined
      | Own arr => Ok (VBool (includes field arr))
      | Inherited => Throw TypeError      (* no includes to call *)
      end
  end.

(* ================================================================== *)
(** ** The methods of [ES] that talk to the engine *)

Section ESMethods.

Context {E : Type}.
Variable client : Client E.

(** [./const]: the page-size ceiling. *)
Variable SCROLL_PAGE_SIZE : Z.

(** [./filter] and [./sort] are synchronous translators that may throw.
    [getESSortBody] gives back undefined or a list of objects. *)
Variable getFilterObj : ES -> string -> string -> value -> Result value.
Variable getESSortBody :
  value -> ES -> string -> Result (option (list (obj value))).

(** The runtime's built-in objects: how [Object.prototype[name][field]]
    reads in a condition, for a [name] other than [__proto__]; [None]
    when the read itself throws. The properties of the built-in
    functions differ from one runtime to the next. *)
Variable builtin_truthy : string -> string -> option bool.

(** The sort clause as a JavaScript value. *)
Definition sort_value (s : option (list (obj value))) : value :=
  match s with
  | None => VUndefined
  | Some items => VArr (map VObj items)
  end.

(** A search request that sets only [index], [type] and [body]. *)
Definition plain_search (index : string) (type : option string)
    (body : value) : Search.params :=
  {| Search.index := index; Search.type := type; Search.body := body;
     Search.scroll := None; Search.size := None;
     Search._source := None; Search.sort := None |}.

(** The keys of [queryBody] whose value is neither undefined nor null,
    copied in order. *)
Definition validate_body (queryBody : obj value) : obj value :=
  fold_left
    (fun validatedQueryBody key =>
       match obj_get key queryBody with
       | Some v =>
           if is_nullish v then validatedQueryBody
           else obj_set key v validatedQueryBody
       | None => validatedQueryBody
       end)
    (obj_keys queryBody) [].

Definition query (esIndex esType : string) (queryBody : obj value)
  : M E Body.t :=
  let validatedQueryBody := validate_body queryBody in
  let p := plain_search esIndex (Some esType) (VObj validatedQueryBody) in
  await_wrapped (CSearch p) (search client p).

(** [`${Object.keys(item)[0]}:${Object.values(item)[0]}`] *)
Definition sort_token (item : obj value) : string :=
  match item with
  | [] => "undefined:undefined"
  | (k, v) :: _ => k ++ ":" ++ to_str v
  end.

(** The request that opens the scroll. *)
Definition scroll_search (esIndex esType : string)
    (validatedQueryBody : value) (fields : option (list string))
    (sortStringList : option (list string)) : Search.params :=
  {| Search.index := esIndex; Search.type := Some esType;
     Search.body := validatedQueryBody;
     Search.scroll := Some "1m"; Search.size := Some SCROLL_PAGE_SIZE;
     Search._source := fields; Search.sort := sortStringList |}.

(** The call an iteration of the loop makes: the search while
    [scrollID] is undefined, a scroll on [scrollID] afterwards. *)
Definition fetch_call (p : Search.params) (scrollID : option string)
  : Call :=
  match scrollID with
  | None => CSearch p
  | Some id => CScroll (Some id) "1m"
  end.

(** Is the call a [clearScroll]? *)
Definition is_clearScroll (c : Call) : bool :=
  match c with
  | CClearScroll _ => true
  | _ => false
  end.

(** The [while] loop of [scrollQuery]. Each test of the loop condition
    uses one unit of [fuel]; [None] means the loop is still running when
    the fuel is gone. The result is [totalData] with the last
    [scrollID]. *)
Fixpoint scroll_while (fuel : nat) (p : Search.params)
    (currentBatch : option Body.t) (scrollID : option string)
    (totalData : list value) (batchSize : nat) (w : World E)
  : option (Result (list value * option string) * World E) :=
  match fuel with
  | O => None
  | S fuel' =>
      if match currentBatch with None => true | Some _ => false end
         || (0 <? batchSize)%nat
      then
        let fetch :=
          match scrollID with
          | None =>                                   (* first batch *)
              await_wrapped (CSearch p) (search client p)
          | Some id =>                                (* following batches *)
              await (CScroll (Some id) "1m") (scroll client (Some id) "1m")
          end in
        match fetch w with
        | (Throw e, w') => Some (Throw e, w')
        | (Ok batch, w') =>
            let scrollID' := Body._scroll_id batch in
            let items := Hits.hits (Body.hits batch) in
            scroll_while fuel' p (Some batch) scrollID'
              (totalData ++ map Hit._source items)%list (List.length items) w'
        end
      else Some (Ok (totalData, scrollID), w)
  end.

Definition invalid_fields_message (fieldsNotBelong : list string) : string :=
  "Invalid fields: " ++ dquote
    ++ String.concat (dquote ++ ", " ++ dquote) fieldsNotBelong ++ dquote.

(** [this.getESFields(esIndex).fields] as [_.difference] takes it: the
    fields of the entry; nothing for a property of [Object.prototype],
    whose [fields] is undefined; reading [fields] of undefined throws. *)
Definition answer_fields (answer : Result fields_answer)
  : Result (list string) :=
  match answer with
  | Throw e => Throw e
  | Ok (AllIndices _) | Ok (ForIndex None) => Throw TypeError
  | Ok (ForIndex (Some entry)) => Ok (IndexFields.fields entry)
  | Ok (PrototypeProperty _) => Ok []
  end.

(** [esIndex] and [esType] are strings; the empty string stands for
    every value [!] maps to true. *)
Definition scrollQuery (fuel : nat) (this : ES) (esIndex esType : string)
    (filter : value) (fields : option (list string))
    (sort : option (list (obj value))) (w : World E)
  : option (Result (list value) * World E) :=
  if (esIndex =? "")%string || (esType =? "")%string then
    Some (Throw (CodedError 400 "Invalid es index or es type name"), w)
  else
    match answer_fields (getESFields this (Some esIndex)) with
    | Throw e => Some (Throw e, w)
    | Ok known =>
        let fieldsNotBelong := difference fields known in
        if (0 <? List.length fieldsNotBelong)%nat then
          Some (Throw (CodedError 400 (invalid_fields_message fieldsNotBelong)), w)
        else
          let validatedQueryBody :=
            if truthy filter then VObj [("query", filter)] else VObj [] in
          let sortStringList := option_map (map sort_token) sort in
          let p := scroll_search esIndex esType validatedQueryBody fields
                     sortStringList in
          match scroll_while fuel p None None [] 0 w with
          | None => None
          | Some (Throw e, w') => Some (Throw e, w')
          | Some (Ok (totalData, scrollID), w') =>
              match await (CClearScroll scrollID)
                      (clearScroll client scrollID) w' with
              | (Throw e, w'') => Some (Throw e, w'')
              | (Ok _, w'') => Some (Ok totalData, w'')
              end
          end
    end.

(** [_getESFieldsTypes]. The text the runtime gives a [TypeError] is
    left out of the message. *)
Definition _getESFieldsTypes (esIndex esType : string)
  : M E (obj (option string)) :=
  let errMsg := "[ES.initialize] error getting mapping from ES index "
                ++ dquote ++ esIndex ++ dquote in
  r <- call (CGetMapping esIndex esType) (getMapping client esIndex esType) ;;
  match r with
  | Resolve body =>
      let found :=
        match obj_keys body with
        | [] => None
        | esIndexAlias :: _ =>
            match obj_get esIndexAlias body with
            | None => None
            | Some mappings => obj_get esType mappings
            end
        end in
      match found with
      | None => throw (JsError (errMsg ++ ": TypeError"))
      | Some mappingObj =>
          ret (fold_left
                 (fun acc field =>
                    match obj_get field mappingObj with
                    | Some esFieldType => obj_set field esFieldType acc
                    | None => acc
                    end)
                 (obj_keys mappingObj) [])
      end
  | Reject message => throw (JsError (errMsg ++ ": " ++ message))
  end.

Definition _getMappingsForAllIndices (this : ES) : M E FieldTypes :=
  let errMsg := "[ES.initialize] Error when initializing: empty "
                ++ dquote ++ "config.indices" ++ dquote ++ " block" in
  match indices (config this) with
  | IndicesUndefined => throw (JsError errMsg)
  | IndicesNum n =>
      if n =? 0 then throw (JsError errMsg)
      else throw TypeError              (* a number has no map *)
  | IndicesList l =>
      let promiseList :=
        map (fun cfg =>
               res <- _getESFieldsTypes (IndexCfg.index cfg)
                        (IndexCfg.type cfg) ;;
               ret (IndexCfg.index cfg, res)) l in
      resultList <- promise_all promiseList ;;
      ret (fold_left
             (fun fieldTypes res => obj_set (fst res) (snd res) fieldTypes)
             resultList [])
  end.

(** How [this.fieldTypes[index][field]] reads in a condition when
    [this.fieldTypes[index]] is the field types of an index: a type that
    is a non-empty string is truthy, and so is every property the object
    inherits. *)
Definition field_type_truthy (types : obj (option string)) (field : string)
  : bool :=
  match obj_read field types with
  | Own (Some t) => negb (t =? "")%string
  | Own None => false
  | Inherited => true
  | Undefined => false
  end.

(** The same read when [this.fieldTypes[index]] is itself a property of
    [Object.prototype]: a built-in function, or, for [__proto__],
    [Object.prototype], whose properties are functions but for its own
    [__proto__], which is null. *)
Definition builtin_field_truthy (index field : string) : option bool :=
  if (index =? "__proto__")%string then
    Some (inherited field && negb (field =? "__proto__")%string)
  else builtin_truthy index field.

(** The body of [fields.forEach] in [_getArrayFieldsFromConfigIndex];
    [type_truthy] is the read of [this.fieldTypes[index][field]]. *)
Definition add_array_field (type_truthy : string -> option bool)
    (index : string) (arrayFields : ArrayFields) (field : value)
  : Result ArrayFields :=
  match type_truthy (to_str field) with
  | None => Throw TypeError
  | Some false => Ok arrayFields
  | Some true =>
      match obj_read index arrayFields with
      | Undefined => Ok (obj_set index [field] arrayFields)
      | Own l => Ok (obj_set index (l ++ [field])%list arrayFields)
      | Inherited => Throw TypeError      (* no push to call *)
      end
  end.

(** [fields.forEach(...)] *)
Fixpoint add_array_fields (type_truthy : string -> option bool)
    (index : string) (arrayFields : ArrayFields) (fields : list value)
  : Result ArrayFields :=
  match fields with
  | [] => Ok arrayFields
  | field :: rest =>
      rbind (add_array_field type_truthy index arrayFields field)
        (fun arrayFields' =>
           add_array_fields type_truthy index arrayFields' rest)
  end.

(** [doc._source.array], when it is an array. *)
Definition doc_array (doc : Hit.t) : option (list value) :=
  match Hit._source doc with
  | VObj props =>
      match obj_get "array" props with
      | Some (VArr fields) => Some fields
      | _ => None
      end
  | _ => None
  end.

(** The body of [resp.body.hits.hits.forEach]. *)
Definition add_array_doc (ft : FieldTypes) (arrayFields : ArrayFields)
    (doc : Hit.t) : Result ArrayFields :=
  let index := Hit._id doc in
  let type_truthy :=
    match obj_read index ft with
    | Undefined => None
    | Own types => Some (fun field => Some (field_type_truthy types field))
    | Inherited => Some (builtin_field_truthy index)
    end in
  match type_truthy with
  | None => Ok arrayFields                (* index not found, skipped *)
  | Some type_truthy =>
      match doc_array doc with
      | Some fields => add_array_fields type_truthy index arrayFields fields
      | None => Throw TypeError
      end
  end.

Fixpoint add_array_docs (ft : FieldTypes) (arrayFields : ArrayFields)
    (docs : list Hit.t) : Result ArrayFields :=
  match docs with
  | [] => Ok arrayFields
  | doc :: rest =>
      rbind (add_array_doc ft arrayFields doc)
        (fun arrayFields' => add_array_docs ft arrayFields' rest)
  end.

Definition _getArrayFieldsFromConfigIndex (this : ES) : M E ArrayFields :=
  match configIndex (config this) with
  | None => ret []
  | Some ci =>
      match fieldTypes this with
      | None => ret []
      | Some ft =>
          let p := plain_search ci None
                     (VObj [("query",
                        VObj [("ids",
                          VObj [("values", VArr (map VStr (obj_keys ft)))])])]) in
          r <- call (CSearch p) (search client p) ;;
          match r with
          | Resolve body =>
              match add_array_docs ft [] (Hits.hits (Body.hits body)) with
              | Ok arrayFields => ret arrayFields
              | Throw _ => throw (JsError "TypeError")
              end
          | Reject message => throw (JsError message)
          end
      end
  end.

(** [initialize] gives back [this] as the two assignments leave it. *)
Definition initialize (this : ES) : M E ES :=
  ft <- _getMappingsForAllIndices this ;;
  let this1 := {| config := config this; fieldTypes := Some ft;
                  arrayFields := arrayFields this |} in
  af <- _getArrayFieldsFromConfigIndex this1 ;;
  ret {| config := config this1; fieldTypes := fieldTypes this1;
         arrayFields := Some af |}.

Definition filterData (this : ES) (esIndex esType : string)
    (filter : value) (fields : option (list string)) (sort : value)
    (offset size : option Z) : M E Body.t :=
  let fields := match fields with Some l => l | None => [] end in
  let offset := match offset with Some o => o | None => 0 end in
  let queryBody : obj value := [("from", VNum offset)] in
  queryBody <-
    (if is_undefined filter then ret queryBody
     else q <- lift (getFilterObj this esIndex esType filter) ;;
          ret (obj_set "query" q queryBody)) ;;
  s <- lift (getESSortBody sort this esIndex) ;;
  let queryBody := obj_set "sort" (sort_value s) queryBody in
  let queryBody :=
    match size with
    | Some n => obj_set "size" (VNum n) queryBody
    | None => queryBody
    end in
  let queryBody :=
    if (0 <? List.length fields)%nat
    then obj_set "_source" (VArr (map VStr fields)) queryBody
    else queryBody in
  query esIndex esType queryBody.

Definition getCount (this : ES) (esIndex esType : string) (filter : value)
  : M E Z :=
  result <- filterData this esIndex esType filter (Some []) VUndefined
              None None ;;
  ret (Hits.total (Body.hits result)).

(** [`${n}`] for an argument that is a number or undefined. *)
Definition show (n : option Z) : string :=
  match n with
  | Some z => dec z
  | None => "undefined"
  end.

Definition large_query_message (offset size : option Z) : string :=
  "Large graphql query forbidden for offset + size > "
    ++ dec SCROLL_PAGE_SIZE ++ ", " ++ nl
    ++ "      offset = " ++ show offset ++ " and size = " ++ show size ++ ","
    ++ nl
    ++ "      please use download endpoint for large data queries instead.".

(** [typeof size !== 'undefined' && offset + size > SCROLL_PAGE_SIZE];
    an undefined [offset] makes the sum NaN, which is greater than
    nothing. *)
Definition over_ceiling (offset size : option Z) : bool :=
  match size with
  | None => false
  | Some s =>
      match offset with
      | None => false
      | Some o => SCROLL_PAGE_SIZE <? o + s
      end
  end.

Definition getData (this : ES) (esIndex esType : string)
    (fields : option (list string)) (filter sort : value)
    (offset size : option Z) : M E (list value) :=
  if over_ceiling offset size then
    throw (UserInputError (large_query_message offset size))
  else
    result <- filterData this esIndex esType filter fields sort offset size ;;
    ret (map Hit._source (Hits.hits (Body.hits result))).

Definition downloadData (fuel : nat) (this : ES) (esIndex esType : string)
    (fields : option (list string)) (filter sort : value) (w : World E)
  : option (Result (list value) * World E) :=
  let esFilterObj :=
    if truthy filter then getFilterObj this esIndex esType filter
    else Ok VUndefined in
  match esFilterObj with
  | Throw e => Some (Throw e, w)
  | Ok f =>
      match getESSortBody sort this esIndex with
      | Throw e => Some (Throw e, w)
      | Ok s => scrollQuery fuel this esIndex esType f fields s w
      end
  end.

End ESMethods.

(** What [_getArrayFieldsFromConfigIndex] keeps true of the object it
    fills: an index in it is an index with field types whose name
    [Object.prototype] does not have, its list is not empty, and every
    field of the list reads as truthy in the field types of the index:
    it has a non-empty type there, or it is not there and bears a name
    of [Object.prototype]. *)
Definition array_fields_mapped (ft : FieldTypes) (af : ArrayFields) : Prop :=
  forall (index : string) (arr : list value),
    obj_get index af = Some arr ->
    arr <> []
    /\ inherited index = false
    /\ exists types,
         obj_get index ft = Some types
         /\ forall field, In field arr ->
              (exists t, obj_get (to_str field) types = Some (Some t)
                         /\ t <> ""%string)
              \/ (obj_get (to_str field) types = None
                  /\ inherited (to_str field) = true).

(** The text [_getESFieldsTypes] puts in front of its errors. *)
Definition mapping_error_prefix (esIndex : string) : string :=
  "[ES.initialize] error getting mapping from ES index "
    ++ dquote ++ esIndex ++ dquote.

(* ================================================================== *)
(** ** Two engines to run the methods against *)

(** An engine that plays a script: every search and every scroll is
    answered by the next reply of the script, whatever is asked. *)
Module Scripted.

Definition state : Type := list (Reply Body.t).

Definition next (s : state) : Reply Body.t * state :=
  match s with
  | [] => (Reject "script exhausted", [])
  | r :: rest => (r, rest)
  end.

Definition client : Client state :=
  {| search := fun _ => next;
     scroll := fun _ _ => next;
     clearScroll := fun _ s => (Resolve tt, s);
     getMapping := fun _ _ s => (Reject "no mapping", s) |}.

End Scripted.

(** An engine that holds the documents a query matches and serves them
    page by page through one scroll cursor, the way the scroll protocol
    of the search engine does: a search skips [from] hits, returns the
    next [size] hits (ten when no size is given) and, when it asks for a
    scroll, opens the cursor on the rest; a scroll returns the next page;
    clearScroll closes the cursor. *)
Module Paging.

Record state : Type := {
  result_set : list Hit.t;
  cursor : option (list Hit.t);
  page : nat;
  released : nat
}.

Definition start (docs : list Hit.t) : state :=
  {| result_set := docs; cursor := None; page := 0; released := 0 |}.

Definition cursor_id : string := "c1".

Definition answer (st : state) (id : option string) (batch : list Hit.t)
  : Body.t :=
  {| Body._scroll_id := id;
     Body.hits := {| Hits.total := Z.of_nat (List.length (result_set st));
                     Hits.hits := batch |} |}.

(** A number the body of a request gives under [key]. *)
Definition body_num (key : string) (body : value) : option Z :=
  match body with
  | VObj props =>
      match obj_get key props with
      | Some (VNum z) => Some z
      | _ => None
      end
  | _ => None
  end.

Definition search (p : Search.params) (st : state) : Reply Body.t * state :=
  let from := match body_num "from" (Search.body p) with
              | Some z => Z.to_nat z
              | None => 0%nat
              end in
  let n := match Search.size p, body_num "size" (Search.body p) with
           | Some z, _ => Z.to_nat z
           | None, Some z => Z.to_nat z
           | None, None => 10%nat
           end in
  let matched := skipn from (result_set st) in
  match Search.scroll p with
  | Some _ =>
      (Resolve (answer st (Some cursor_id) (firstn n matched)),
       {| result_set := result_set st;
          cursor := Some (skipn n matched);
          page := n; released := released st |})
  | None => (Resolve (answer st None (firstn n matched)), st)
  end.

Definition scroll (id : option string) (ttl : string) (st : state)
  : Reply Body.t * state :=
  match cursor st with
  | Some rest =>
      (Resolve (answer st (Some cursor_id) (firstn (page st) rest)),
       {| result_set := result_set st;
          cursor := Some (skipn (page st) rest);
          page := page st; released := released st |})
  | None => (Reject "No search context found", st)
  end.

Definition clearScroll (id : option string) (st : state)
  : Reply unit * state :=
  (Resolve tt,
   {| result_set := result_set st; cursor := None; page := page st;
      released := S (released st) |}).

Definition client : Client state :=
  Build_Client state search scroll clearScroll
    (fun _ _ st => (Reject "no mapping", st)).

(** The number of pages of [n] hits, [size] to the page. *)
Definition pages (size n : nat) : nat := ((n + size - 1) / size)%nat.

End Paging.

(* ================================================================== *)
(** ** The tier-access middleware *)

(** The argument of [tierAccessResolver]; [isRawDataQuery] is undefined
    where the call leaves it out. *)
Record TierArgs : Type := {
  isRawDataQuery : option bool;
  esType : string;
  esIndex : string
}.

Section TierAccessMiddleware.

(** [./resolvers] and [utils/utils]: a resolver is a function of the
    GraphQL server; the two factories and the helper are taken as
    given. *)
Variable Resolver : Type.
Variable tierAccessResolver : TierArgs -> Resolver.
Variable hideNumberResolver : bool -> bool -> Resolver.
Variable firstLetterUpperCase : string -> string.

(** The three objects the module fills in [forEach]. *)
Record TypeMappings : Type := {
  queryTypeMapping : obj Resolver;
  aggsTypeMapping : obj Resolver;
  totalCountTypeMapping : obj (obj Resolver)
}.

Definition add_index (m : TypeMappings) (item : IndexCfg.t) : TypeMappings :=
  let aggregationName :=
    firstLetterUpperCase (IndexCfg.type item) ++ "Aggregation" in
  {| queryTypeMapping :=
       obj_set (IndexCfg.type item)
         (tierAccessResolver
            {| isRawDataQuery := Some true;
               esType := IndexCfg.type item;
               esIndex := IndexCfg.index item |})
         (queryTypeMapping m);
     aggsTypeMapping :=
       obj_set (IndexCfg.type item)
         (tierAccessResolver
            {| isRawDataQuery := None;
               esType := IndexCfg.type item;
               esIndex := IndexCfg.index item |})
         (aggsTypeMapping m);
     totalCountTypeMapping :=
       obj_set aggregationName
         [("_totalCount", hideNumberResolver true true)]
         (totalCountTypeMapping m) |}.

Definition typeMappings (l : list IndexCfg.t) : TypeMappings :=
  fold_left add_index l
    {| queryTypeMapping := []; aggsTypeMapping := [];
       totalCountTypeMapping := [] |}.

(** The exported object, a value of the module: it is computed from the
    configuration when the module is loaded. *)
Definition tierAccessMiddleware (cfg : EsConfig)
  : Result (obj (obj Resolver)) :=
  match indices cfg with
  | IndicesList l =>
      let m := typeMappings l in
      let o := obj_set "Query" (obj_spread [] (queryTypeMapping m)) [] in
      let o := obj_set "Aggregation" (obj_spread [] (aggsTypeMapping m)) o in
      let o := obj_spread o (totalCountTypeMapping m) in
      let o := obj_set "HistogramForNumber"
                 [("histogram", hideNumberResolver false true)] o in
      let o := obj_set "HistogramForString"
                 [("histogram", hideNumberResolver false true)] o in
      Ok o
  | _ => Throw TypeError                (* no forEach to call *)
  end.

End TierAccessMiddleware.

(* ================================================================== *)
(** ** A small deployment, for running the definitions *)

Module Demo.

Definition cfg : EsConfig :=
  {| host := "http://localhost:9200";
     indices := IndicesList
                  [ {| IndexCfg.index := "gen3-dev-subject";
                       IndexCfg.type := "subject" |};
                    {| IndexCfg.index := "gen3-dev-file";
                       IndexCfg.type := "file" |} ];
     configIndex := None |}.

(** [this] after [initialize]. *)
Definition es : ES :=
  {| config := cfg;
     fieldTypes :=
       Some [ ("gen3-dev-subject",
               [("gender", Some "keyword"); ("age", Some "long")]);
              ("gen3-dev-file", [("file_id", Some "keyword")]) ];
     arrayFields := Some [ ("gen3-dev-file", [VStr "file_id"]) ] |}.

(** [this] before [initialize], with an empty list of indices. *)
Definition es_no_indices : ES :=
  {| config := {| host := "http://localhost:9200";
                  indices := IndicesList [];
                  configIndex := None |};
     fieldTypes := None;
     arrayFields := None |}.

Definition doc (id : string) (age : Z) : Hit.t :=
  {| Hit._id := id;
     Hit._source := VObj [("gender", VStr "female"); ("age", VNum age)] |}.

Definition batch (id : option string) (docs : list Hit.t) : Body.t :=
  {| Body._scroll_id := id;
     Body.hits := {| Hits.total := 3; Hits.hits := docs |} |}.

(** Translators that accept everything: the filter goes through as it
    is, and no sort is asked for. *)
Definition getFilterObj (this : ES) (esIndex esType : string)
    (filter : value) : Result value := Ok filter.
Definition getESSortBody (sort : value) (this : ES) (esIndex : string)
  : Result (option (list (obj value))) := Ok None.

(** An engine that knows the mappings of the two indices and holds, in
    the configuration index, the array fields declared for them. *)
Definition mapping_of (index : string) : option MappingBody :=
  if (index =? "gen3-dev-subject")%string then
    Some [("gen3-dev-subject_1",
           [("subject",
             [("gender", Some "keyword"); ("age", Some "long")])])]
  else if (index =? "gen3-dev-file")%string then
    Some [("gen3-dev-file_1",
           [("file", [("file_id", Some "keyword")])])]
  else None.

Definition array_config : Body.t :=
  {| Body._scroll_id := None;
     Body.hits :=
       {| Hits.total := 2;
          Hits.hits :=
            [ {| Hit._id := "gen3-dev-file";
                 Hit._source :=
                   VObj [("array", VArr [VStr "file_id"; VStr "no_such_field"])] |};
              {| Hit._id := "gen3-dev-case";
                 Hit._source := VObj [("array", VArr [VStr "case_id"])] |} ] |} |}.

Definition catalog : Client unit :=
  {| search := fun _ e => (Resolve array_config, e);
     scroll := fun _ _ e => (Reject "No search context found", e);
     clearScroll := fun _ e => (Resolve tt, e);
     getMapping := fun index _ e =>
       match mapping_of index with
       | Some m => (Resolve m, e)
       | None => (Reject "index_not_found_exception", e)
       end |}.

(** The built-in objects of a runtime, as far as a condition reads
    them: a built-in function has a [name], its [length] is its number
    of parameters, it inherits [apply], [bind] and [call] and what
    [Object.prototype] has, [Object] has its own methods besides, and
    reading [caller] or [arguments] throws. *)
Definition builtin_truthy (name field : string) : option bool :=
  if existsb (String.eqb field) ["caller"; "arguments"] then None
  else if (field =? "length")%string then
    Some (negb (existsb (String.eqb name)
                  ["toString"; "valueOf"; "toLocaleString"]))
  else if existsb (String.eqb field) ["name"; "apply"; "bind"; "call"]
          || inherited field then Some true
  else if (name =? "constructor")%string then
    Some (existsb (String.eqb field)
            ["prototype"; "assign"; "create"; "defineProperties";
             "defineProperty"; "entries"; "freeze"; "fromEntries";
             "getOwnPropertyDescriptor"; "getOwnPropertyDescriptors";
             "getOwnPropertyNames"; "getOwnPropertySymbols";
             "getPrototypeOf"; "is"; "isExtensible"; "isFrozen"; "isSealed";
             "keys"; "preventExtensions"; "seal"; "setPrototypeOf";
             "values"])
  else Some false.

(** A configuration index that declares, for the file index, a field of
    the mapping and the name [constructor], which the mapping does not
    have and every object inherits. *)
Definition array_config_inherited : Body.t :=
  {| Body._scroll_id := None;
     Body.hits :=
       {| Hits.total := 1;
          Hits.hits :=
            [ {| Hit._id := "gen3-dev-file";
                 Hit._source :=
                   VObj [("array", VArr [VStr "file_id"; VStr "constructor"])] |} ] |} |}.

Definition catalog_inherited : Client unit :=
  {| search := fun _ e => (Resolve array_config_inherited, e);
     scroll := fun _ _ e => (Reject "No search context found", e);
     clearScroll := fun _ e => (Resolve tt, e);
     getMapping := getMapping catalog |}.

(** [this] as the constructor leaves it, with a configuration index. *)
Definition es_new : ES :=
  {| config := {| host := "http://localhost:9200";
                  indices := indices cfg;
                  configIndex := Some "gen3-dev-config" |};
     fieldTypes := None;
     arrayFields := None |}.

(** A world over the paging engine, holding three documents. *)
Definition w0 : World Paging.state :=
  {| engine := Paging.start [doc "s1" 30; doc "s2" 41; doc "s3" 52];
     calls := [] |}.

(** The entry [getESFields] builds for the subject index. *)
Definition subject_fields : IndexFields.t :=
  {| IndexFields.index := "gen3-dev-subject";
     IndexFields.type := "subject";
     IndexFields.fields := ["gender"; "age"] |}.

(** Resolvers, told apart by how they were made. *)
Inductive guard : Type :=
| TierAccess (args : TierArgs)
| HideNumber (isGQLType useEncryption : bool).

Definition upper (c : ascii) : ascii :=
  let n := nat_of_ascii c in
  if ((97 <=? n) && (n <=? 122))%nat then ascii_of_nat (n - 32) else c.

(** Modelled from the spec: [firstLetterUpperCase] of [utils/utils], which
    is not among the sources; the spec has it upper-case the first letter
    of the type name (here: an ASCII letter). *)
Definition firstLetterUpperCase (str : string) : string :=
  match str with
  | EmptyString => EmptyString
  | String c rest => String (upper c) rest
  end.

(** An engine that answers every search and every scroll with the same
    batch of one hit, and so never with an empty batch. *)
Definition endless : Client unit :=
  {| search := fun _ e => (Resolve (batch (Some "c1") [doc "s1" 30]), e);
     scroll := fun _ _ e => (Resolve (batch (Some "c1") [doc "s1" 30]), e);
     clearScroll := fun _ e => (Resolve tt, e);
     getMapping := fun _ _ e => (Reject "index_not_found_exception", e) |}.

(** A filter translator that refuses every filter. *)
Definition refuseFilter (this : ES) (esIndex esType : string)
    (filter : value) : Result value :=
  Throw (UserInputError "Invalid filter").

End Demo.

(* ================================================================== *)
(** ** Objects: lookup after update *)

Lemma obj_get_set_same {A} (k : string) (a : A) (o : obj A) :
  obj_get k (obj_set k a o) = Some a.
Proof.
  induction o as [|[k' a'] rest IH]; simpl.
  - now rewrite String.eqb_refl.
  - destruct (k' =? k)%string eqn:Hk; simpl; rewrite Hk; auto.
Qed.

Lemma obj_get_set_other {A} (k k' : string) (a : A) (o : obj A) :
  k <> k' -> obj_get k (obj_set k' a o) = obj_get k o.
Proof.
  intros Hne. induction o as [|[k1 a1] rest IH]; simpl.
  - destruct (String.eqb_spec k' k); congruence.
  - destruct (String.eqb_spec k1 k'); simpl.
    + subst k1. destruct (String.eqb_spec k' k); congruence.
    + destruct (String.eqb_spec k1 k); auto.
Qed.

Lemma obj_get_notin {A} (k : string) (o : obj A) :
  ~ In k (obj_keys o) -> obj_get k o = None.
Proof.
  induction o as [|[k' a'] rest IH]; simpl; intros Hn; auto.
  destruct (String.eqb_spec k' k); [tauto|]. apply IH. tauto.
Qed.

Lemma obj_get_in {A} (k : string) (o : obj A) :
  In k (obj_keys o) -> exists a, obj_get k o = Some a.
Proof.
  induction o as [|[k' a'] rest IH]; simpl; intros Hin; [tauto|].
  destruct (String.eqb_spec k' k); eauto.
  destruct Hin; [congruence|auto].
Qed.

(** The loop of [ES.query] keeps exactly the entries that are neither
    undefined nor null. *)
Lemma validate_loop_get (queryBody : obj value) (k : string) :
  forall (ks : list string) (acc : obj value),
    obj_get k
      (fold_left
         (fun validatedQueryBody key =>
            match obj_get key queryBody with
            | Some v =>
                if is_nullish v then validatedQueryBody
                else obj_set key v validatedQueryBody
            | None => validatedQueryBody
            end) ks acc)
    = if in_dec string_dec k ks then
        match obj_get k queryBody with
        | Some v => if is_nullish v then obj_get k acc else Some v
        | None => obj_get k acc
        end
      else obj_get k acc.
Proof.
  induction ks as [|key ks IH]; intros acc; simpl; auto.
  rewrite IH.
  destruct (string_dec key k) as [->|Hne].
  - destruct (in_dec string_dec k ks);
      destruct (obj_get k queryBody) as [v|]; auto;
      destruct (is_nullish v); auto using obj_get_set_same.
  - assert (Hacc : obj_get k
               match obj_get key queryBody with
               | Some v => if is_nullish v then acc else obj_set key v acc
               | None => acc
               end = obj_get k acc).
    { destruct (obj_get key queryBody) as [v|]; auto.
      destruct (is_nullish v); auto.
      apply obj_get_set_other; congruence. }
    rewrite Hacc.
    destruct (in_dec string_dec k ks); auto.
Qed.

Lemma validate_body_get (queryBody : obj value) (k : string) :
  obj_get k (validate_body queryBody)
  = match obj_get k queryBody with
    | Some v => if is_nullish v then None else Some v
    | None => None
    end.
Proof.
  unfold validate_body. rewrite validate_loop_get. simpl.
  destruct (in_dec string_dec k (obj_keys queryBody)) as [Hin|Hn].
  - destruct (obj_get k queryBody) as [v|]; auto.
  - now rewrite (obj_get_notin _ _ Hn).
Qed.

(** Text: append is associative. *)
Lemma append_assoc (a b c : string) : ((a ++ b) ++ c = a ++ (b ++ c))%string.
Proof. induction a as [|ch a IH]; simpl; congruence. Qed.

(* ================================================================== *)
(** ** Bounded search: [query], [filterData], [getCount], [getData] *)

Section BoundedSearch.

Context {E : Type} (client : Client E) (SCROLL_PAGE_SIZE : Z).
Context (getFilterObj : ES -> string -> string -> value -> Result value).
Context (getESSortBody :
           value -> ES -> string -> Result (option (list (obj value)))).

Local Abbreviation filterData := (filterData client getFilterObj getESSortBody).
Local Abbreviation getCount := (getCount client getFilterObj getESSortBody).
Local Abbreviation getData :=
  (getData client SCROLL_PAGE_SIZE getFilterObj getESSortBody).

(** [query] makes one search call and wraps a rejection. *)
Lemma query_run (esIndex esType : string) (queryBody : obj value)
    (w : World E) :
  query client esIndex esType queryBody w
  = let p := plain_search esIndex (Some esType)
               (VObj (validate_body queryBody)) in
    match search client p (engine w) with
    | (Resolve body, e') =>
        (Ok body, {| engine := e'; calls := calls w ++ [CSearch p] |})
    | (Reject msg, e') =>
        (Throw (JsError msg),
         {| engine := e'; calls := calls w ++ [CSearch p] |})
    end.
Proof.
  unfold query, await_wrapped, bind, call. simpl.
  destruct (search client _ (engine w)) as [[body|msg] e']; reflexivity.
Qed.

(** When both translators succeed, [filterData] hands [query] a body
    with these entries. *)
Lemma filterData_dispatch (this : ES) (esIndex esType : string)
    (filter : value) (fields : option (list string)) (sort : value)
    (offset size : option Z) (w : World E) (q : value)
    (s : option (list (obj value))) :
  (if is_undefined filter then Ok VUndefined
   else getFilterObj this esIndex esType filter) = Ok q ->
  getESSortBody sort this esIndex = Ok s ->
  exists queryBody : obj value,
    filterData this esIndex esType filter fields sort offset size w
    = query client esIndex esType queryBody w
    /\ obj_get "from" queryBody
       = Some (VNum match offset with Some o => o | None => 0 end)
    /\ obj_get "size" queryBody = option_map VNum size
    /\ obj_get "_source" queryBody
       = match fields with
         | Some (f :: fs) => Some (VArr (map VStr (f :: fs)))
         | _ => None
         end.
Proof.
  intros Hq Hs. unfold filterData.
  set (off := match offset with Some o => o | None => 0 end).
  set (fl := match fields with Some l => l | None => [] end).
  set (qb1 := if is_undefined filter then [("from", VNum off)]
              else obj_set "query" q [("from", VNum off)]).
  set (qb2 := obj_set "sort" (sort_value s) qb1).
  set (qb3 := match size with
              | Some n => obj_set "size" (VNum n) qb2
              | None => qb2
              end).
  exists (if (0 <? List.length fl)%nat
          then obj_set "_source" (VArr (map VStr fl)) qb3 else qb3).
  assert (H1from : obj_get "from" qb1 = Some (VNum off))
    by (unfold qb1; destruct (is_undefined filter); reflexivity).
  assert (H1size : obj_get "size" qb1 = None)
    by (unfold qb1; destruct (is_undefined filter); reflexivity).
  assert (H1src : obj_get "_source" qb1 = None)
    by (unfold qb1; destruct (is_undefined filter); reflexivity).
  assert (H3from : obj_get "from" qb3 = Some (VNum off)).
  { unfold qb3, qb2. destruct size;
      repeat (rewrite obj_get_set_other by discriminate); exact H1from. }
  assert (H3size : obj_get "size" qb3 = option_map VNum size).
  { unfold qb3, qb2. destruct size; simpl.
    - apply obj_get_set_same.
    - rewrite obj_get_set_other by discriminate. exact H1size. }
  assert (H3src : obj_get "_source" qb3 = None).
  { unfold qb3, qb2. destruct size;
      repeat (rewrite obj_get_set_other by discriminate); exact H1src. }
  split; [|split; [|split]].
  - unfold bind, lift, ret. fold off. fold fl.
    destruct (is_undefined filter) eqn:Hu.
    + rewrite Hs. reflexivity.
    + rewrite Hq, Hs. reflexivity.
  - destruct (0 <? List.length fl)%nat;
      [rewrite obj_get_set_other by discriminate|]; exact H3from.
  - destruct (0 <? List.length fl)%nat;
      [rewrite obj_get_set_other by discriminate|]; exact H3size.
  - unfold fl. destruct fields as [[|f fs]|]; simpl; auto.
    apply obj_get_set_same.
Qed.

(** The guard of [getData] fires exactly when both numbers are given
    and their sum is above the ceiling. *)
Lemma over_ceiling_spec (offset size : option Z) :
  over_ceiling SCROLL_PAGE_SIZE offset size = true
  <-> exists o s, offset = Some o /\ size = Some s
                  /\ SCROLL_PAGE_SIZE < o + s.
Proof.
  unfold over_ceiling. split.
  - destruct size as [s|]; [|discriminate].
    destruct offset as [o|]; [|discriminate].
    intros H. apply Z.ltb_lt in H. eauto.
  - intros (o & s & -> & -> & H). now apply Z.ltb_lt.
Qed.

(** C1. A [getData] request whose [offset + size] is above
    [SCROLL_PAGE_SIZE] throws a [UserInputError] (an InvalidInput) whose
    message ends by sending the caller to the download endpoint, and the
    world is left as it was: no call reaches the engine. *)
Theorem getData_rejects_over_ceiling
    (this : ES) (esIndex esType : string) (fields : option (list string))
    (filter sort : value) (o s : Z) (w : World E) :
  SCROLL_PAGE_SIZE < o + s ->
  exists msg prefix : string,
    getData this esIndex esType fields filter sort (Some o) (Some s) w
    = (Throw (UserInputError msg), w)
    /\ is_InvalidInput (UserInputError msg) = true
    /\ msg = (prefix
              ++ "please use download endpoint for large data queries instead.")%string
    /\ calls (snd (getData this esIndex esType fields filter sort
                     (Some o) (Some s) w)) = calls w.
Proof.
  intros Hgt.
  assert (Hc : over_ceiling SCROLL_PAGE_SIZE (Some o) (Some s) = true)
    by (apply over_ceiling_spec; eauto).
  exists (large_query_message SCROLL_PAGE_SIZE (Some o) (Some s)).
  exists ("Large graphql query forbidden for offset + size > "
          ++ dec SCROLL_PAGE_SIZE ++ ", " ++ nl
          ++ "      offset = " ++ dec o ++ " and size = " ++ dec s ++ ","
          ++ nl ++ "      ")%string.
  unfold getData. rewrite Hc. unfold throw. cbn [snd calls].
  split; [reflexivity|]. split; [reflexivity|]. split; [|reflexivity].
  unfold large_query_message, show.
  repeat rewrite append_assoc. reflexivity.
Qed.

(** C10. With [size] undefined the ceiling is not looked at: whatever
    [offset] is, once the two translators have succeeded the request is
    sent to the engine, as one search whose body carries [from] (the
    offset, 0 when undefined) and no [size], and [getData] returns what
    the engine answers. *)
Theorem getData_without_size_is_dispatched
    (this : ES) (esIndex esType : string) (fields : option (list string))
    (filter sort : value) (offset : option Z) (w : World E) (q : value)
    (s : option (list (obj value))) :
  (if is_undefined filter then Ok VUndefined
   else getFilterObj this esIndex esType filter) = Ok q ->
  getESSortBody sort this esIndex = Ok s ->
  over_ceiling SCROLL_PAGE_SIZE offset None = false
  /\ exists b : obj value,
      obj_get "from" b
      = Some (VNum match offset with Some o => o | None => 0 end)
      /\ obj_get "size" b = None
      /\ getData this esIndex esType fields filter sort offset None w
         = let p := plain_search esIndex (Some esType) (VObj b) in
           match search client p (engine w) with
           | (Resolve body, e') =>
               (Ok (map Hit._source (Hits.hits (Body.hits body))),
                {| engine := e'; calls := calls w ++ [CSearch p] |})
           | (Reject msg, e') =>
               (Throw (JsError msg),
                {| engine := e'; calls := calls w ++ [CSearch p] |})
           end.
Proof.
  intros Hq Hs. split; [reflexivity|].
  destruct (filterData_dispatch this esIndex esType filter fields sort
              offset None w q s Hq Hs)
    as (qb & Hrun & Hfrom & Hsize & _).
  exists (validate_body qb). repeat split.
  - rewrite validate_body_get, Hfrom. reflexivity.
  - rewrite validate_body_get, Hsize. reflexivity.
  - unfold getData. simpl. unfold bind. rewrite Hrun, query_run. simpl.
    destruct (search client _ (engine w)) as [[body|msg] e']; reflexivity.
Qed.

(** C8. [getCount] is [filterData] called with the empty field list and
    neither sort, offset nor size, followed by reading [hits.total].
    Once the filter is translated it makes one search, whose request
    names no source field ([_source] is absent from the request and
    from its body) and no size, and it returns the [hits.total] of the
    engine's answer. *)
Theorem getCount_reads_total
    (this : ES) (esIndex esType : string) (filter : value) (w : World E)
    (q : value) (s : option (list (obj value))) :
  (if is_undefined filter then Ok VUndefined
   else getFilterObj this esIndex esType filter) = Ok q ->
  getESSortBody VUndefined this esIndex = Ok s ->
  getCount this esIndex esType filter w
  = (let (r, w') := filterData this esIndex esType filter (Some [])
                      VUndefined None None w in
     (match r with
      | Ok result => Ok (Hits.total (Body.hits result))
      | Throw e => Throw e
      end, w'))
  /\ exists b : obj value,
      obj_get "_source" b = None
      /\ obj_get "size" b = None
      /\ obj_get "from" b = Some (VNum 0)
      /\ Search._source (plain_search esIndex (Some esType) (VObj b)) = None
      /\ getCount this esIndex esType filter w
         = let p := plain_search esIndex (Some esType) (VObj b) in
           match search client p (engine w) with
           | (Resolve body, e') =>
               (Ok (Hits.total (Body.hits body)),
                {| engine := e'; calls := calls w ++ [CSearch p] |})
           | (Reject msg, e') =>
               (Throw (JsError msg),
                {| engine := e'; calls := calls w ++ [CSearch p] |})
           end.
Proof.
  intros Hq Hs. split.
  - unfold getCount, bind, ret.
    destruct (filterData _ _ _ _ _ _ _ _ w) as [[r|e] w']; reflexivity.
  - destruct (filterData_dispatch this esIndex esType filter (Some [])
                VUndefined None None w q s Hq Hs)
      as (qb & Hrun & Hfrom & Hsize & Hsrc).
    exists (validate_body qb). repeat split.
    + rewrite validate_body_get, Hsrc. reflexivity.
    + rewrite validate_body_get, Hsize. reflexivity.
    + rewrite validate_body_get, Hfrom. reflexivity.
    + unfold getCount, bind. rewrite Hrun, query_run. simpl.
      destruct (search client _ (engine w)) as [[body|msg] e']; reflexivity.
Qed.

End BoundedSearch.

(* ================================================================== *)
(** ** Bulk export: [scrollQuery] *)

Lemma append_empty_r (a : string) : (a ++ "")%string = a.
Proof. induction a as [|ch a IH]; simpl; congruence. Qed.

(** Every element of a list shows up, between quotes, in the quoted
    join of the list. *)
Lemma quoted_join_mentions (q c f : string) (l : list string) :
  In f l ->
  exists pre suf : string,
    (q ++ String.concat (q ++ c ++ q) l ++ q = pre ++ q ++ f ++ q ++ suf)%string.
Proof.
  induction l as [|x rest IH]; intros Hin; [destruct Hin|].
  destruct rest as [|y rest'].
  - destruct Hin as [->|[]]. exists ""%string, ""%string.
    cbn [String.concat append]. now rewrite append_empty_r.
  - change (String.concat (q ++ c ++ q) (x :: y :: rest'))
      with (x ++ (q ++ c ++ q) ++ String.concat (q ++ c ++ q) (y :: rest'))%string.
    destruct Hin as [->|Hin].
    + exists ""%string,
        (c ++ q ++ String.concat (q ++ c ++ q) (y :: rest') ++ q)%string.
      cbn [append]. now repeat rewrite append_assoc.
    + destruct (IH Hin) as (pre & suf & Heq).
      exists (q ++ x ++ q ++ c ++ pre)%string, suf.
      repeat rewrite append_assoc. rewrite <- Heq.
      now repeat rewrite append_assoc.
Qed.

Lemma known_field_In (f : string) (known : list string) :
  existsb (fun k => (k =? f)%string) known = true <-> In f known.
Proof.
  rewrite existsb_exists. split.
  - intros (k & Hin & Heq). apply String.eqb_eq in Heq. now subst.
  - intros Hin. exists f. split; auto. apply String.eqb_refl.
Qed.

Lemma difference_In (f : string) (fs known : list string) :
  In f (difference (Some fs) known) <-> In f fs /\ ~ In f known.
Proof.
  unfold difference. rewrite filter_In, negb_true_iff.
  rewrite <- (known_field_In f known).
  destruct (existsb (fun k => (k =? f)%string) known).
  - split; intros [H1 H2]; [discriminate | now elim H2].
  - split; intros [H1 H2]; split; auto; discriminate.
Qed.

(** With nothing known, every requested field is left. *)
Lemma difference_nothing_known (fs : list string) :
  difference (Some fs) [] = fs.
Proof.
  unfold difference. induction fs as [|f fs IH]; [reflexivity|].
  simpl. f_equal. exact IH.
Qed.

Section ScrollExport.

Context {E : Type} (client : Client E) (SCROLL_PAGE_SIZE : Z).

Local Abbreviation scrollQuery := (scrollQuery client SCROLL_PAGE_SIZE).

(** C5. A [scrollQuery] call for a configured index, with non-empty
    index and type names, whose [fields] hold a field the index does not
    know throws a [CodedError] with status 400 (an InvalidInput) before
    the loop is entered, so with no call to the engine; the message is
    the quoted, comma-separated list of all the requested fields that
    are unknown, and so shows each of them between quotes. *)
Theorem scrollQuery_names_every_invalid_field
    (fuel : nat) (this : ES) (esIndex esType : string) (filter : value)
    (fs : list string) (sort : option (list (obj value))) (w : World E)
    (entry : IndexFields.t) :
  esIndex <> ""%string ->
  esType <> ""%string ->
  getESFields this (Some esIndex) = Ok (ForIndex (Some entry)) ->
  (exists f, In f fs /\ ~ In f (IndexFields.fields entry)) ->
  exists msg : string,
    scrollQuery fuel this esIndex esType filter (Some fs) sort w
    = Some (Throw (CodedError 400 msg), w)
    /\ is_InvalidInput (CodedError 400 msg) = true
    /\ msg = invalid_fields_message
               (difference (Some fs) (IndexFields.fields entry))
    /\ forall f, In f fs -> ~ In f (IndexFields.fields entry) ->
         exists pre suf : string,
           msg = (pre ++ dquote ++ f ++ dquote ++ suf)%string.
Proof.
  intros Hi Ht Hentry (f0 & Hin0 & Hbad0).
  exists (invalid_fields_message
            (difference (Some fs) (IndexFields.fields entry))).
  assert (Hlen : (0 <? List.length
                          (difference (Some fs) (IndexFields.fields entry)))%nat
                 = true).
  { apply Nat.ltb_lt.
    assert (Hd : In f0 (difference (Some fs) (IndexFields.fields entry)))
      by (apply difference_In; auto).
    destruct (difference (Some fs) (IndexFields.fields entry));
      [destruct Hd | simpl; lia]. }
  split; [|split; [reflexivity|split; [reflexivity|]]].
  - unfold scrollQuery.
    apply String.eqb_neq in Hi, Ht. rewrite Hi, Ht. cbn [orb].
    rewrite Hentry. cbn [answer_fields]. rewrite Hlen. reflexivity.
  - intros f Hin Hbad. unfold invalid_fields_message.
    assert (Hd : In f (difference (Some fs) (IndexFields.fields entry)))
      by (apply difference_In; auto).
    destruct (quoted_join_mentions dquote ", " f _ Hd) as (pre & suf & Heq).
    exists ("Invalid fields: " ++ pre)%string, suf.
    rewrite append_assoc, <- Heq. now repeat rewrite append_assoc.
Qed.

(** [downloadData] is [scrollQuery] on the translated filter and sort. *)
Lemma downloadData_runs_scrollQuery
    (getFilterObj : ES -> string -> string -> value -> Result value)
    (getESSortBody :
       value -> ES -> string -> Result (option (list (obj value))))
    (fuel : nat) (this : ES) (esIndex esType : string)
    (fields : option (list string)) (filter sort : value) (w : World E)
    (esFilterObj : value) (s : option (list (obj value))) :
  (if truthy filter then getFilterObj this esIndex esType filter
   else Ok VUndefined) = Ok esFilterObj ->
  getESSortBody sort this esIndex = Ok s ->
  downloadData client SCROLL_PAGE_SIZE getFilterObj getESSortBody fuel this
    esIndex esType fields filter sort w
  = scrollQuery fuel this esIndex esType esFilterObj fields s w.
Proof.
  intros Hf Hs. unfold downloadData. rewrite Hf, Hs. reflexivity.
Qed.

End ScrollExport.

(** *** Against the scripted engine *)

Local Open Scope list_scope.

Section ScriptedExport.

Variable SCROLL_PAGE_SIZE : Z.

Local Abbreviation scrollQuery := (scrollQuery Scripted.client SCROLL_PAGE_SIZE).

(** The sources of the hits of a batch. *)
Local Abbreviation sources :=
  (fun b : Body.t => map Hit._source (Hits.hits (Body.hits b))).

(** The loop keeps fetching while batches hold hits, stops at the first
    batch without hits, and leaves the rest of the script alone. *)
Lemma scripted_loop (p : Search.params) (last : Body.t)
    (rest : Scripted.state) :
  Hits.hits (Body.hits last) = [] ->
  forall bs : list Body.t,
    Forall (fun b => Hits.hits (Body.hits b) <> []) bs ->
    forall (fuel : nat) (cb : option Body.t) (sid : option string)
           (total : list value) (bsz : nat) (cs : list Call),
      (List.length bs + 2 <= fuel)%nat ->
      cb = None \/ (0 < bsz)%nat ->
      scroll_while Scripted.client fuel p cb sid total bsz
        {| engine := map Resolve bs ++ Resolve last :: rest; calls := cs |}
      = Some (Ok (total ++ List.concat (map sources bs), Body._scroll_id last),
              {| engine := rest;
                 calls := cs ++ map (fetch_call p)
                                  (sid :: map Body._scroll_id bs) |}).
Proof.
  intros Hlast bs. induction bs as [|b bs IH];
    intros Hne fuel cb sid total bsz cs Hfuel Hcont.
  - destruct fuel as [|[|fuel]]; try (simpl in Hfuel; lia).
    assert (Hc : (match cb with None => true | Some _ => false end
                  || (0 <? bsz)%nat) = true).
    { destruct Hcont as [->|Hb]; [reflexivity|].
      apply Nat.ltb_lt in Hb. rewrite Hb. apply orb_true_r. }
    cbn [scroll_while]. rewrite Hc.
    destruct sid as [id|];
      cbn; rewrite Hlast; cbn; rewrite app_nil_r; reflexivity.
  - destruct fuel as [|fuel]; [simpl in Hfuel; lia|].
    assert (Hc : (match cb with None => true | Some _ => false end
                  || (0 <? bsz)%nat) = true).
    { destruct Hcont as [->|Hb]; [reflexivity|].
      apply Nat.ltb_lt in Hb. rewrite Hb. apply orb_true_r. }
    inversion Hne as [|? ? Hb Hrest]; subst.
    assert (Hpos : (0 < List.length (Hits.hits (Body.hits b)))%nat).
    { destruct (Hits.hits (Body.hits b)); [congruence|simpl; lia]. }
    cbn [scroll_while]. rewrite Hc.
    assert (Hstep : forall c,
               scroll_while Scripted.client fuel p (Some b)
                 (Body._scroll_id b) (total ++ sources b)
                 (List.length (Hits.hits (Body.hits b)))
                 {| engine := map Resolve bs ++ Resolve last :: rest;
                    calls := cs ++ [c] |}
               = Some (Ok (total ++ List.concat (map sources (b :: bs)),
                           Body._scroll_id last),
                       {| engine := rest;
                          calls := cs ++ c :: map (fetch_call p)
                                     (map Body._scroll_id (b :: bs)) |})).
    { intros c. rewrite IH; auto; [|simpl in Hfuel; lia].
      cbn [map List.concat]. rewrite <- !app_assoc. reflexivity. }
    destruct sid as [id|]; cbn; apply Hstep.
Qed.

Lemma fetch_calls_release_nothing (p : Search.params)
    (ids : list (option string)) :
  List.filter is_clearScroll (map (fetch_call p) ids) = [].
Proof.
  induction ids as [|[id|] ids IH]; simpl; auto.
Qed.

(** C2. Let the engine answer the search and the scrolls that follow
    with the batches [bs], each holding at least one hit, and then with
    a batch [last] that holds none; the [N] documents of the result set
    are the hits of [bs]. For a configured index and known fields, and
    with fuel for every test of the loop condition, [scrollQuery]
    returns: the [_source] of every hit of every batch, in the order
    of arrival, so [N] documents; it stops at [last], leaving any
    further reply of the engine unread; and it calls [clearScroll]
    once, as its last call, on the cursor id of [last]. *)
Theorem scrollQuery_returns_every_batch
    (this : ES) (esIndex esType : string) (filter : value)
    (fields : option (list string)) (sort : option (list (obj value)))
    (entry : IndexFields.t) (bs : list Body.t) (last : Body.t)
    (rest : Scripted.state) (cs : list Call) (fuel : nat) :
  esIndex <> ""%string ->
  esType <> ""%string ->
  getESFields this (Some esIndex) = Ok (ForIndex (Some entry)) ->
  difference fields (IndexFields.fields entry) = [] ->
  Forall (fun b => Hits.hits (Body.hits b) <> []) bs ->
  Hits.hits (Body.hits last) = [] ->
  (List.length bs + 2 <= fuel)%nat ->
  let p := scroll_search SCROLL_PAGE_SIZE esIndex esType
             (if truthy filter then VObj [("query"%string, filter)]
              else VObj [])
             fields (option_map (map sort_token) sort) in
  let documents := List.concat (map (fun b => Hits.hits (Body.hits b)) bs) in
  exists (w' : World Scripted.state) (new_calls : list Call),
    scrollQuery fuel this esIndex esType filter fields sort
      {| engine := map Resolve bs ++ Resolve last :: rest; calls := cs |}
    = Some (Ok (map Hit._source documents), w')
    /\ List.length (map Hit._source documents) = List.length documents
    /\ engine w' = rest
    /\ calls w' = cs ++ new_calls
    /\ new_calls
       = CSearch p :: map (fetch_call p) (map Body._scroll_id bs)
           ++ [CClearScroll (Body._scroll_id last)]
    /\ List.filter is_clearScroll new_calls
       = [CClearScroll (Body._scroll_id last)].
Proof.
  intros Hi Ht Hentry Hfields Hne Hlast Hfuel p documents.
  exists {| engine := rest;
            calls := (cs ++ map (fetch_call p)
                              (None :: map Body._scroll_id bs))
                     ++ [CClearScroll (Body._scroll_id last)] |}.
  exists (CSearch p :: map (fetch_call p) (map Body._scroll_id bs)
            ++ [CClearScroll (Body._scroll_id last)]).
  split; [|split; [|split; [|split; [|split]]]].
  - unfold scrollQuery.
    apply String.eqb_neq in Hi, Ht. rewrite Hi, Ht. cbn [orb].
    rewrite Hentry. cbn [answer_fields]. rewrite Hfields. cbn [List.length Nat.ltb Nat.leb].
    fold p.
    rewrite (scripted_loop p last rest Hlast bs Hne fuel None None [] 0 cs
               Hfuel (or_introl eq_refl)).
    unfold documents. rewrite concat_map.
    rewrite (map_map (fun b => Hits.hits (Body.hits b)) (map Hit._source)).
    reflexivity.
  - apply length_map.
  - reflexivity.
  - cbn [calls]. rewrite <- app_assoc. reflexivity.
  - reflexivity.
  - cbn [fetch_call List.filter is_clearScroll app map].
    rewrite filter_app, fetch_calls_release_nothing. reflexivity.
Qed.

End ScriptedExport.

(** *** Against the paging engine *)

Lemma pages_zero (size : nat) : (0 < size)%nat -> Paging.pages size 0 = 0%nat.
Proof.
  intros Hs. unfold Paging.pages. apply Nat.div_small. lia.
Qed.

Lemma pages_step (size m : nat) :
  (0 < size)%nat -> (0 < m)%nat ->
  Paging.pages size m = S (Paging.pages size (m - size)).
Proof.
  intros Hs Hm. unfold Paging.pages.
  destruct (le_lt_dec m size) as [Hle|Hgt].
  - replace (m - size)%nat with 0%nat by lia.
    replace (0 + size - 1)%nat with (size - 1)%nat by lia.
    rewrite (Nat.div_small (size - 1) size) by lia.
    symmetry. apply (Nat.div_unique _ _ 1%nat (m - 1)%nat); lia.
  - replace (m + size - 1)%nat with ((m - size + size - 1) + 1 * size)%nat
      by lia.
    rewrite Nat.div_add by lia. lia.
Qed.

Section PagingExport.

Variable SCROLL_PAGE_SIZE : Z.

Local Abbreviation size := (Z.to_nat SCROLL_PAGE_SIZE).
Local Abbreviation next_page := (CScroll (Some Paging.cursor_id) "1m").

(** Once the cursor is open and the last batch held hits, the loop
    scrolls through what is left, one page at a time, and one more time
    to see the empty batch. *)
Lemma paging_loop (p : Search.params) (docs : list Hit.t) (rel : nat) :
  (0 < size)%nat ->
  forall (n : nat) (rest : list Hit.t),
    (List.length rest <= n)%nat ->
    forall (fuel : nat) (cb : Body.t) (total : list value) (bsz : nat)
           (cs : list Call),
      (n + 2 <= fuel)%nat ->
      (0 < bsz)%nat ->
      scroll_while Paging.client fuel p (Some cb) (Some Paging.cursor_id)
        total bsz
        {| engine := {| Paging.result_set := docs; Paging.cursor := Some rest;
                        Paging.page := size; Paging.released := rel |};
           calls := cs |}
      = Some (Ok (total ++ map Hit._source rest, Some Paging.cursor_id),
              {| engine := {| Paging.result_set := docs;
                              Paging.cursor := Some [];
                              Paging.page := size; Paging.released := rel |};
                 calls := cs ++ repeat next_page
                                  (S (Paging.pages size (List.length rest))) |}).
Proof.
  intros Hsize. induction n as [|n IH];
    intros rest Hlen fuel cb total bsz cs Hfuel Hbsz.
  - destruct rest as [|h t]; [|simpl in Hlen; lia].
    destruct fuel as [|[|fuel]]; try lia.
    apply Nat.ltb_lt in Hbsz.
    cbn [scroll_while orb]. rewrite Hbsz.
    rewrite pages_zero by assumption.
    cbn. rewrite firstn_nil, skipn_nil. cbn. rewrite app_nil_r. reflexivity.
  - destruct fuel as [|fuel]; [lia|].
    assert (Hb : (0 <? bsz)%nat = true) by now apply Nat.ltb_lt.
    destruct rest as [|h t].
    + destruct fuel as [|fuel]; [lia|].
      cbn [scroll_while orb]. rewrite Hb.
      rewrite pages_zero by assumption.
      cbn. rewrite firstn_nil, skipn_nil. cbn. rewrite app_nil_r.
      reflexivity.
    + cbn [scroll_while orb]. rewrite Hb.
      cbn [await bind call Paging.client scroll Paging.scroll engine calls
           Paging.cursor Paging.page Paging.result_set Paging.released ret
           Paging.answer Body._scroll_id Body.hits Hits.hits].
      set (rest := h :: t) in *.
      assert (Hfirst : (0 < List.length (firstn size rest))%nat).
      { rewrite length_firstn. unfold rest. simpl List.length. lia. }
      rewrite (IH (skipn size rest)); try lia.
      * rewrite <- app_assoc, <- map_app, firstn_skipn.
        rewrite length_skipn.
        rewrite (pages_step size (List.length rest)) by
          (try assumption; unfold rest; simpl; lia).
        rewrite <- app_assoc. reflexivity.
      * rewrite length_skipn. unfold rest in *.
        cbn [List.length] in Hlen |- *. lia.
Qed.

(** Against the paging engine holding [N] documents, with a positive
    page size, [scrollQuery] returns the [N] documents in order, after
    the search and as many scrolls as [N] documents make pages, and
    leaves the cursor closed by its one [clearScroll]. *)
Lemma scrollQuery_pages_through_every_document
    (this : ES) (esIndex esType : string) (filter : value)
    (fields : option (list string)) (sort : option (list (obj value)))
    (entry : IndexFields.t) (docs : list Hit.t) (cs : list Call)
    (fuel : nat) :
  0 < SCROLL_PAGE_SIZE ->
  esIndex <> ""%string ->
  esType <> ""%string ->
  getESFields this (Some esIndex) = Ok (ForIndex (Some entry)) ->
  difference fields (IndexFields.fields entry) = [] ->
  (List.length docs + 3 <= fuel)%nat ->
  let p := scroll_search SCROLL_PAGE_SIZE esIndex esType
             (if truthy filter then VObj [("query"%string, filter)]
              else VObj [])
             fields (option_map (map sort_token) sort) in
  scrollQuery Paging.client SCROLL_PAGE_SIZE fuel this esIndex esType filter
    fields sort {| engine := Paging.start docs; calls := cs |}
  = Some (Ok (map Hit._source docs),
          {| engine := {| Paging.result_set := docs; Paging.cursor := None;
                          Paging.page := size; Paging.released := 1 |};
             calls := cs ++ CSearch p
                        :: repeat next_page
                             (Paging.pages size (List.length docs))
                        ++ [CClearScroll (Some Paging.cursor_id)] |}).
Proof.
  intros Hpos Hi Ht Hentry Hfields Hfuel p.
  assert (Hsize : (0 < size)%nat) by lia.
  unfold scrollQuery.
  apply String.eqb_neq in Hi, Ht. rewrite Hi, Ht. cbn [orb].
  rewrite Hentry. cbn [answer_fields]. rewrite Hfields. cbn [List.length Nat.ltb Nat.leb]. fold p.
  destruct fuel as [|fuel]; [lia|].
  cbn [scroll_while orb].
  assert (Hopen :
            await_wrapped (CSearch p) (search Paging.client p)
              {| engine := Paging.start docs; calls := cs |}
            = (Ok (Paging.answer (Paging.start docs) (Some Paging.cursor_id)
                     (firstn size docs)),
               {| engine := {| Paging.result_set := docs;
                               Paging.cursor := Some (skipn size docs);
                               Paging.page := size; Paging.released := 0 |};
                  calls := cs ++ [CSearch p] |}))
    by (unfold p; destruct (truthy filter); reflexivity).
  cbv zeta. rewrite Hopen.
  cbn [Paging.answer Body._scroll_id Body.hits Hits.hits app].
  destruct docs as [|h t].
  - destruct fuel as [|fuel]; [simpl in Hfuel; lia|].
    rewrite firstn_nil. rewrite pages_zero by assumption.
    cbn. rewrite <- app_assoc. reflexivity.
  - set (docs := h :: t) in *.
    assert (Hfirst : (0 < List.length (firstn size docs))%nat).
    { rewrite length_firstn. unfold docs. cbn [List.length]. lia. }
    rewrite (paging_loop p docs 0 Hsize (List.length docs)
               (skipn size docs)); try lia.
    + cbn [await bind call Paging.client clearScroll Paging.clearScroll
           engine calls ret Paging.result_set Paging.page Paging.released].
      rewrite <- map_app, firstn_skipn, length_skipn.
      rewrite (pages_step size (List.length docs)) by
        (try assumption; unfold docs; cbn [List.length]; lia).
      rewrite <- !app_assoc. reflexivity.
    + rewrite length_skipn. lia.
Qed.

End PagingExport.

(** *** Failure while scrolling *)

Section ScrollFailure.

Context {E : Type} (client : Client E).

(** Whatever the engine does, the loop makes fetch calls only. *)
Lemma scroll_while_only_fetches (p : Search.params) :
  forall (fuel : nat) (cb : option Body.t) (sid : option string)
         (total : list value) (bsz : nat) (w w' : World E)
         (r : Result (list value * option string)),
    scroll_while client fuel p cb sid total bsz w = Some (r, w') ->
    exists ids : list (option string),
      calls w' = calls w ++ map (fetch_call p) ids.
Proof.
  induction fuel as [|fuel IH]; intros cb sid total bsz w w' r Hrun;
    [discriminate|].
  cbn [scroll_while] in Hrun.
  destruct (match cb with None => true | Some _ => false end
            || (0 <? bsz)%nat).
  - assert (Hfetch :
        forall res w1,
          match sid with
          | None => await_wrapped (CSearch p) (search client p)
          | Some id =>
              await (CScroll (Some id) "1m") (scroll client (Some id) "1m")
          end w = (res, w1) ->
          calls w1 = calls w ++ [fetch_call p sid]).
    { intros res w1. destruct sid as [id|];
        unfold await, await_wrapped, bind, call; cbn;
        [destruct (scroll client (Some id) "1m" (engine w)) as [[b|m] e']
        |destruct (search client p (engine w)) as [[b|m] e']];
        cbn; intros H; inversion H; reflexivity. }
    destruct (match sid with
              | None => await_wrapped (CSearch p) (search client p)
              | Some id =>
                  await (CScroll (Some id) "1m")
                    (scroll client (Some id) "1m")
              end w) as [[batch|e] w1] eqn:Hf.
    + apply IH in Hrun. destruct Hrun as (ids & Hids).
      exists (sid :: ids). rewrite Hids, (Hfetch _ _ eq_refl).
      rewrite <- app_assoc. reflexivity.
    + inversion Hrun; subst. exists [sid]. apply (Hfetch _ _ eq_refl).
  - inversion Hrun; subst. exists []. now rewrite app_nil_r.
Qed.

End ScrollFailure.

(** C3. The engine answers the search with one hit and the cursor [c1],
    and rejects the scroll that follows. [scrollQuery] then throws the
    rejection, and the calls it has made are the search and the scroll:
    the cursor [c1] is opened and no [clearScroll] is made for it. *)
Theorem scrollQuery_failed_fetch_leaves_cursor
    (SCROLL_PAGE_SIZE : Z) (fuel : nat) :
  let p := scroll_search SCROLL_PAGE_SIZE "gen3-dev-subject" "subject"
             (VObj []) (Some ["gender"%string]) None in
  let w := {| engine := [ Resolve (Demo.batch (Some "c1"%string)
                                     [Demo.doc "s1" 30]);
                          Reject "search_phase_execution_exception" ];
              calls := [] |} in
  scrollQuery Scripted.client SCROLL_PAGE_SIZE (S (S fuel)) Demo.es
    "gen3-dev-subject" "subject" VUndefined (Some ["gender"%string]) None w
  = Some (Throw (Rejection "search_phase_execution_exception"),
          {| engine := [];
             calls := [CSearch p; CScroll (Some "c1"%string) "1m"] |})
  /\ List.filter is_clearScroll
       [CSearch p; CScroll (Some "c1"%string) "1m"] = [].
Proof.
  split; reflexivity.
Qed.

(* ================================================================== *)
(** ** Initialization *)

Section Initialization.

Context {E : Type} (client : Client E).
Context (builtin_truthy : string -> string -> option bool).

(** With [config.indices] missing, [_getMappingsForAllIndices] throws
    without calling the engine. *)
Lemma getMappings_missing_indices_throws (this : ES) (w : World E) :
  indices (config this) = IndicesUndefined ->
  exists msg,
    _getMappingsForAllIndices client this w = (Throw (JsError msg), w).
Proof.
  intros H. unfold _getMappingsForAllIndices. rewrite H.
  eexists. reflexivity.
Qed.

(** C4. With [config.indices] the empty list, neither test of the guard
    of [_getMappingsForAllIndices] holds (an empty list is not false,
    and is not the number 0): the method returns the empty object, and
    [initialize] succeeds with no field types and no array fields,
    without a call to the engine. *)
Theorem initialize_accepts_empty_indices (w : World E) :
  _getMappingsForAllIndices client Demo.es_no_indices w = (Ok [], w)
  /\ initialize client builtin_truthy Demo.es_no_indices w
     = (Ok {| config := config Demo.es_no_indices;
              fieldTypes := Some [];
              arrayFields := Some [] |}, w).
Proof.
  split; reflexivity.
Qed.

End Initialization.

(* ================================================================== *)
(** ** Metadata lookups: [isArrayField] and [getESFields] *)

Lemma includes_In (field : string) (arr : list value) :
  includes field arr = true <-> In (VStr field) arr.
Proof.
  unfold includes. rewrite existsb_exists. split.
  - intros (v & Hin & Hv). destruct v; try discriminate.
    apply String.eqb_eq in Hv. now subst.
  - intros Hin. exists (VStr field). split; auto. apply String.eqb_refl.
Qed.

(** Reads of an object made by [{}]. *)
Lemma obj_read_own {A} (k : string) (o : obj A) (a : A) :
  obj_get k o = Some a -> obj_read k o = Own a.
Proof. intros H. unfold obj_read. now rewrite H. Qed.

Lemma obj_read_absent {A} (k : string) (o : obj A) :
  obj_get k o = None ->
  obj_read k o = if inherited k then Inherited else Undefined.
Proof. intros H. unfold obj_read. now rewrite H. Qed.

(** C6, as the code has it. Once [arrayFields] is set, [isArrayField]
    returns [true] exactly for a field in the list registered for the
    index. For any other field it returns [false] where the index has a
    list. Where the index has none, it returns [undefined], a value that
    counts as false, unless the index bears a name of
    [Object.prototype]: then [this.arrayFields[esIndex]] is the
    inherited property, which has no [includes], and the call throws a
    [TypeError]. *)
Theorem isArrayField_registered_or_falsy
    (this : ES) (af : ArrayFields) (esIndex field : string) :
  arrayFields this = Some af ->
  (isArrayField this esIndex field = Ok (VBool true)
   <-> exists arr, obj_get esIndex af = Some arr /\ In (VStr field) arr)
  /\ (forall arr, obj_get esIndex af = Some arr -> ~ In (VStr field) arr ->
        isArrayField this esIndex field = Ok (VBool false))
  /\ (obj_get esIndex af = None -> inherited esIndex = false ->
        isArrayField this esIndex field = Ok VUndefined
        /\ truthy VUndefined = false)
  /\ (obj_get esIndex af = None -> inherited esIndex = true ->
        isArrayField this esIndex field = Throw TypeError).
Proof.
  intros Haf. unfold isArrayField. rewrite Haf.
  destruct (obj_get esIndex af) as [arr|] eqn:Hget.
  - rewrite (obj_read_own _ _ _ Hget).
    split; [|split; [|split; discriminate]].
    + split.
      * intros Hrun. exists arr. split; [reflexivity|].
        apply includes_In. now inversion Hrun.
      * intros (arr' & Heq & Hin). inversion Heq; subst arr'.
        apply includes_In in Hin. now rewrite Hin.
    + intros arr' Heq Hnot. inversion Heq; subst arr'.
      destruct (includes field arr) eqn:Hinc; [|reflexivity].
      apply includes_In in Hinc. contradiction.
  - rewrite (obj_read_absent _ _ Hget).
    split; [|split; [discriminate|split]].
    + split.
      * destruct (inherited esIndex); discriminate.
      * intros (arr & Heq & _). discriminate.
    + intros _ Hno. rewrite Hno. split; reflexivity.
    + intros _ Hyes. rewrite Hyes. reflexivity.
Qed.

(** C6, as stated, fails twice over. The index [gen3-dev-subject] has
    no array field registered, and the answer for its field [gender] is
    [undefined], which is not a boolean. And for the name [constructor],
    which [Object.prototype] has, the call returns nothing: it throws. *)
Lemma isArrayField_undefined_counterexample :
  isArrayField Demo.es "gen3-dev-subject" "gender" = Ok VUndefined
  /\ ~ (exists b : bool,
          isArrayField Demo.es "gen3-dev-subject" "gender" = Ok (VBool b))
  /\ isArrayField Demo.es "constructor" "gender" = Throw TypeError.
Proof.
  split; [reflexivity|]. split; [|reflexivity]. intros [b Hb]. discriminate.
Qed.

Lemma getESFields_loop_other (ft : FieldTypes) (esIndex : string) :
  forall (l : list IndexCfg.t) (res : obj IndexFields.t),
    (forall cfg, In cfg l -> obj_get (IndexCfg.index cfg) ft <> None) ->
    ~ In esIndex (map IndexCfg.index l) ->
    exists res',
      getESFields_loop (Some ft) l res = Ok res'
      /\ obj_get esIndex res' = obj_get esIndex res.
Proof.
  induction l as [|cfg l IH]; intros res Hinit Hnot.
  - exists res. split; reflexivity.
  - cbn [getESFields_loop].
    destruct (obj_get (IndexCfg.index cfg) ft) as [types|] eqn:Hget;
      [|exfalso; apply (Hinit cfg); [left; reflexivity|assumption]].
    rewrite (obj_read_own _ _ _ Hget).
    destruct (IH (obj_set (IndexCfg.index cfg)
                    {| IndexFields.index := IndexCfg.index cfg;
                       IndexFields.type := IndexCfg.type cfg;
                       IndexFields.fields := obj_keys types |} res))
      as (res' & Hrun & Hsame).
    + intros c Hc. apply Hinit. now right.
    + intros Hin. apply Hnot. now right.
    + exists res'. split; [exact Hrun|]. rewrite Hsame.
      apply obj_get_set_other. intros ->. apply Hnot. now left.
Qed.

(** C7, as the code has it. After initialization (every configured index
    has its field types), [getESFields] called with an index name that
    is not configured does not throw and names no index: it returns what
    [res[esIndex]] reads, which is [undefined], or the property
    [Object.prototype] has under that name when it has one. (An index
    configured under the name [__proto__] is left aside: the assignment
    [res[cfg.index] = ...] would then replace the prototype of [res].) *)
Theorem getESFields_unknown_index_undefined
    (this : ES) (l : list IndexCfg.t) (ft : FieldTypes) (esIndex : string) :
  indices (config this) = IndicesList l ->
  fieldTypes this = Some ft ->
  (forall cfg, In cfg l -> obj_get (IndexCfg.index cfg) ft <> None) ->
  ~ In "__proto__"%string (map IndexCfg.index l) ->
  ~ In esIndex (map IndexCfg.index l) ->
  getESFields this (Some esIndex)
  = Ok (if inherited esIndex then PrototypeProperty esIndex
        else ForIndex None).
Proof.
  intros Hl Hft Hinit _ Hnot. unfold getESFields. rewrite Hl, Hft.
  destruct (getESFields_loop_other ft esIndex l [] Hinit Hnot)
    as (res' & Hrun & Hsame).
  rewrite Hrun. cbn [rbind]. rewrite (obj_read_absent _ _ Hsame).
  destruct (inherited esIndex); reflexivity.
Qed.

(** C7, as stated, fails: [unknownIndex] is not configured, and
    [getESFields] returns a value for it, [undefined], instead of
    throwing; for the name [constructor], not configured either, it
    returns the property every object inherits under that name. *)
Lemma getESFields_unknown_index_counterexample :
  getESFields Demo.es (Some "unknownIndex"%string) = Ok (ForIndex None)
  /\ ~ (exists e : Error,
          getESFields Demo.es (Some "unknownIndex"%string) = Throw e)
  /\ getESFields Demo.es (Some "constructor"%string)
     = Ok (PrototypeProperty "constructor").
Proof.
  split; [reflexivity|]. split; [|reflexivity]. intros [e He]. discriminate.
Qed.

(* ================================================================== *)
(** ** The tier-access middleware *)

Lemma obj_set_keys {A} (k k' : string) (a : A) (o : obj A) :
  In k (obj_keys (obj_set k' a o)) <-> k = k' \/ In k (obj_keys o).
Proof.
  induction o as [|[k1 a1] rest IH]; simpl.
  - intuition.
  - destruct (String.eqb_spec k1 k'); simpl.
    + subst. intuition.
    + rewrite IH. intuition.
Qed.

Lemma obj_set_NoDup {A} (k : string) (a : A) (o : obj A) :
  NoDup (obj_keys o) -> NoDup (obj_keys (obj_set k a o)).
Proof.
  induction o as [|[k1 a1] rest IH]; simpl; intros Hnd.
  - constructor; [intros []|constructor].
  - inversion Hnd as [|? ? Hnotin Hrest]; subst.
    destruct (String.eqb_spec k1 k); simpl.
    + constructor; assumption.
    + constructor; [|auto].
      change (~ In k1 (obj_keys (obj_set k a rest))).
      rewrite obj_set_keys. intros [->|Hin]; [congruence|contradiction].
Qed.

(** Spreading an object without repeated keys: its entries win over the
    ones already there. *)
Lemma obj_spread_get {A} (k : string) (o : obj A) :
  NoDup (obj_keys o) ->
  forall acc : obj A,
    obj_get k (obj_spread acc o)
    = match obj_get k o with
      | Some v => Some v
      | None => obj_get k acc
      end.
Proof.
  unfold obj_spread.
  induction o as [|[k1 v1] rest IH]; intros Hnd acc; [reflexivity|].
  inversion Hnd as [|? ? Hnotin Hrest]; subst.
  cbn [fold_left fst snd obj_get]. rewrite (IH Hrest).
  destruct (String.eqb_spec k1 k) as [->|Hne].
  - rewrite (obj_get_notin _ _ Hnotin). apply obj_get_set_same.
  - destruct (obj_get k rest); [reflexivity|].
    apply obj_get_set_other. congruence.
Qed.

Lemma obj_spread_keys {A} (k : string) (o : obj A) :
  forall acc : obj A,
    In k (obj_keys (obj_spread acc o))
    <-> In k (obj_keys acc) \/ In k (obj_keys o).
Proof.
  unfold obj_spread.
  induction o as [|[k1 v1] rest IH]; intros acc; cbn [fold_left fst snd].
  - simpl. tauto.
  - rewrite IH, obj_set_keys. simpl. intuition congruence.
Qed.

(** A name that ends in [Aggregation] is none of the three fixed keys
    it could clash with. *)
Ltac peel s H :=
  repeat (destruct s as [|? s]; cbn [append] in H;
          [discriminate H | first [discriminate H | injection H as _ H]]).

Lemma aggregation_name_not_Query (s : string) :
  (s ++ "Aggregation")%string <> "Query"%string.
Proof. intros H. peel s H. Qed.

Lemma aggregation_name_not_HistogramForNumber (s : string) :
  (s ++ "Aggregation")%string <> "HistogramForNumber"%string.
Proof. intros H. peel s H. Qed.

Lemma aggregation_name_not_HistogramForString (s : string) :
  (s ++ "Aggregation")%string <> "HistogramForString"%string.
Proof. intros H. peel s H. Qed.

Lemma aggregation_name_not_Aggregation (s : string) :
  s <> ""%string -> (s ++ "Aggregation")%string <> "Aggregation"%string.
Proof.
  intros Hs H. destruct s as [|c s]; [congruence|].
  cbn [append] in H. injection H as _ H. peel s H.
Qed.

Section TierAccessProperties.

Variable Resolver : Type.
Variable tierAccessResolver : TierArgs -> Resolver.
Variable hideNumberResolver : bool -> bool -> Resolver.
Variable firstLetterUpperCase : string -> string.

Local Abbreviation add_index :=
  (add_index Resolver tierAccessResolver hideNumberResolver
     firstLetterUpperCase).
Local Abbreviation typeMappings :=
  (typeMappings Resolver tierAccessResolver hideNumberResolver
     firstLetterUpperCase).
Local Abbreviation tierAccessMiddleware :=
  (tierAccessMiddleware Resolver tierAccessResolver hideNumberResolver
     firstLetterUpperCase).

Local Abbreviation raw_guard :=
  (fun item : IndexCfg.t =>
     tierAccessResolver {| isRawDataQuery := Some true;
                           esType := IndexCfg.type item;
                           esIndex := IndexCfg.index item |}).
Local Abbreviation aggs_guard :=
  (fun item : IndexCfg.t =>
     tierAccessResolver {| isRawDataQuery := None;
                           esType := IndexCfg.type item;
                           esIndex := IndexCfg.index item |}).
Local Abbreviation aggregationName :=
  (fun item : IndexCfg.t =>
     (firstLetterUpperCase (IndexCfg.type item) ++ "Aggregation")%string).
Local Abbreviation totalCount_guard :=
  [("_totalCount"%string, hideNumberResolver true true)].

(** [forEach] leaves alone the entry of a type it does not meet. *)
Lemma forEach_other_type (T : string) :
  forall (l : list IndexCfg.t) (m : TypeMappings Resolver),
    ~ In T (map IndexCfg.type l) ->
    obj_get T (queryTypeMapping _ (fold_left add_index l m))
    = obj_get T (queryTypeMapping _ m)
    /\ obj_get T (aggsTypeMapping _ (fold_left add_index l m))
       = obj_get T (aggsTypeMapping _ m).
Proof.
  induction l as [|item l IH]; intros m Hnot; [split; reflexivity|].
  cbn [fold_left].
  destruct (IH (add_index m item)) as [Hq Ha].
  { intros Hin. apply Hnot. now right. }
  rewrite Hq, Ha.
  assert (Hne : T <> IndexCfg.type item)
    by (intros ->; apply Hnot; now left).
  unfold add_index. cbn [queryTypeMapping aggsTypeMapping].
  split; apply obj_get_set_other; assumption.
Qed.

(** With one entry per type, [forEach] leaves under each type the two
    guards made for its index. *)
Lemma forEach_type_guards :
  forall (l : list IndexCfg.t) (m : TypeMappings Resolver)
         (item : IndexCfg.t),
    NoDup (map IndexCfg.type l) ->
    In item l ->
    obj_get (IndexCfg.type item)
      (queryTypeMapping _ (fold_left add_index l m))
    = Some (raw_guard item)
    /\ obj_get (IndexCfg.type item)
         (aggsTypeMapping _ (fold_left add_index l m))
       = Some (aggs_guard item).
Proof.
  induction l as [|x l IH]; intros m item Hnd Hin; [destruct Hin|].
  inversion Hnd as [|? ? Hnotin Hrest]; subst.
  cbn [fold_left]. destruct Hin as [->|Hin].
  - destruct (forEach_other_type (IndexCfg.type item) l
                (add_index m item) Hnotin) as [Hq Ha].
    rewrite Hq, Ha. unfold add_index.
    cbn [queryTypeMapping aggsTypeMapping].
    split; apply obj_get_set_same.
  - apply IH; assumption.
Qed.

(** [forEach] adds the configured types, and nothing else, to the keys
    of the two objects. *)
Lemma forEach_type_keys (T : string) :
  forall (l : list IndexCfg.t) (m : TypeMappings Resolver),
    (In T (obj_keys (queryTypeMapping _ (fold_left add_index l m)))
     <-> In T (obj_keys (queryTypeMapping _ m))
         \/ In T (map IndexCfg.type l))
    /\ (In T (obj_keys (aggsTypeMapping _ (fold_left add_index l m)))
        <-> In T (obj_keys (aggsTypeMapping _ m))
            \/ In T (map IndexCfg.type l)).
Proof.
  induction l as [|item l IH]; intros m; cbn [fold_left map].
  - simpl. tauto.
  - destruct (IH (add_index m item)) as [Hq Ha].
    rewrite Hq, Ha. unfold add_index.
    cbn [queryTypeMapping aggsTypeMapping].
    rewrite !obj_set_keys. simpl. intuition congruence.
Qed.

Lemma forEach_keys_NoDup :
  forall (l : list IndexCfg.t) (m : TypeMappings Resolver),
    NoDup (obj_keys (queryTypeMapping _ m)) ->
    NoDup (obj_keys (aggsTypeMapping _ m)) ->
    NoDup (obj_keys (totalCountTypeMapping _ m)) ->
    NoDup (obj_keys (queryTypeMapping _ (fold_left add_index l m)))
    /\ NoDup (obj_keys (aggsTypeMapping _ (fold_left add_index l m)))
    /\ NoDup (obj_keys (totalCountTypeMapping _ (fold_left add_index l m))).
Proof.
  induction l as [|x l IH]; intros m Hq Ha Ht; [auto|].
  cbn [fold_left]. apply IH; unfold add_index;
    cbn [queryTypeMapping aggsTypeMapping totalCountTypeMapping];
    apply obj_set_NoDup; assumption.
Qed.

(** The keys of [totalCountTypeMapping] are aggregation names. *)
Lemma forEach_total_names (k : string) :
  forall (l : list IndexCfg.t) (m : TypeMappings Resolver),
    In k (obj_keys (totalCountTypeMapping _ (fold_left add_index l m))) ->
    In k (obj_keys (totalCountTypeMapping _ m))
    \/ exists item, In item l /\ k = aggregationName item.
Proof.
  induction l as [|x l IH]; intros m Hin; [now left|].
  cbn [fold_left] in Hin. apply IH in Hin.
  destruct Hin as [Hin|(item & Hitem & ->)].
  - unfold add_index in Hin. cbn [totalCountTypeMapping] in Hin.
    apply obj_set_keys in Hin. destruct Hin as [->|Hin]; [|now left].
    right. exists x. split; [now left|reflexivity].
  - right. exists item. split; [now right|reflexivity].
Qed.

(** Every aggregation name ends up with the [_totalCount] guard. *)
Lemma forEach_total_kept (k : string) :
  forall (l : list IndexCfg.t) (m : TypeMappings Resolver),
    obj_get k (totalCountTypeMapping _ m) = Some totalCount_guard ->
    obj_get k (totalCountTypeMapping _ (fold_left add_index l m))
    = Some totalCount_guard.
Proof.
  induction l as [|x l IH]; intros m Hm; [exact Hm|].
  cbn [fold_left]. apply IH. unfold add_index.
  cbn [totalCountTypeMapping].
  destruct (string_dec k (aggregationName x)) as [->|Hne].
  - apply obj_get_set_same.
  - rewrite obj_get_set_other by assumption. exact Hm.
Qed.

Lemma forEach_total_guard :
  forall (l : list IndexCfg.t) (m : TypeMappings Resolver)
         (item : IndexCfg.t),
    In item l ->
    obj_get (aggregationName item)
      (totalCountTypeMapping _ (fold_left add_index l m))
    = Some totalCount_guard.
Proof.
  induction l as [|x l IH]; intros m item Hin; [destruct Hin|].
  cbn [fold_left]. destruct Hin as [->|Hin]; [|now apply IH].
  apply forEach_total_kept. unfold add_index.
  cbn [totalCountTypeMapping]. apply obj_get_set_same.
Qed.

(** C9, as the code has it. For a configuration with one entry per
    type, whose types all have a non-empty capitalised name and none of
    which is [__proto__] (a key whose assignment sets the prototype of
    the object instead of a property), the exported object is built,
    from the configuration alone, and holds: under [Query] and under
    [Aggregation] an object that maps the type of every configured
    entry to the tier-access guard made for that entry's type and
    index (the one under [Query] made with [isRawDataQuery: true]);
    under the capitalised type name followed by [Aggregation] the
    [_totalCount] guard [hideNumberResolver(true, true)]; and under
    [HistogramForNumber] and [HistogramForString] the [histogram]
    guard [hideNumberResolver(false, true)]. The objects under [Query]
    and [Aggregation] have the configured types for keys and no other:
    one guard per configured type. *)
Theorem tierAccessMiddleware_guards_every_type
    (cfg : EsConfig) (l : list IndexCfg.t) :
  indices cfg = IndicesList l ->
  NoDup (map IndexCfg.type l) ->
  (forall item, In item l ->
     firstLetterUpperCase (IndexCfg.type item) <> ""%string) ->
  ~ In "__proto__"%string (map IndexCfg.type l) ->
  exists (mw : obj (obj Resolver)) (q a : obj Resolver),
    tierAccessMiddleware cfg = Ok mw
    /\ obj_get "Query" mw = Some q
    /\ obj_get "Aggregation" mw = Some a
    /\ obj_get "HistogramForNumber" mw
       = Some [("histogram"%string, hideNumberResolver false true)]
    /\ obj_get "HistogramForString" mw
       = Some [("histogram"%string, hideNumberResolver false true)]
    /\ (forall item, In item l ->
          obj_get (IndexCfg.type item) q = Some (raw_guard item)
          /\ obj_get (IndexCfg.type item) a = Some (aggs_guard item)
          /\ obj_get (aggregationName item) mw = Some totalCount_guard)
    /\ (forall T, In T (obj_keys q) <-> In T (map IndexCfg.type l))
    /\ (forall T, In T (obj_keys a) <-> In T (map IndexCfg.type l)).
Proof.
  intros Hl Hnd Hnames _.
  unfold tierAccessMiddleware. rewrite Hl.
  set (m := typeMappings l).
  destruct (forEach_keys_NoDup l
              {| queryTypeMapping := []; aggsTypeMapping := [];
                 totalCountTypeMapping := [] |})
    as (Hqk & Hak & Htk); try constructor.
  fold (typeMappings l) in Hqk, Hak, Htk. fold m in Hqk, Hak, Htk.
  assert (Hfixed : forall k,
             (forall item, In item l -> k <> aggregationName item) ->
             obj_get k (totalCountTypeMapping _ m) = None).
  { intros k Hk. apply obj_get_notin. intros Hin.
    apply forEach_total_names in Hin.
    destruct Hin as [[]|(item & Hitem & ->)].
    now apply (Hk item). }
  eexists. exists (obj_spread [] (queryTypeMapping _ m)).
  exists (obj_spread [] (aggsTypeMapping _ m)).
  split; [reflexivity|].
  split; [|split; [|split; [|split; [|split; [|split]]]]].
  - rewrite obj_get_set_other by discriminate.
    rewrite obj_get_set_other by discriminate.
    rewrite (obj_spread_get _ _ Htk), Hfixed; [reflexivity|].
    intros item _ H. symmetry in H.
    now apply aggregation_name_not_Query in H.
  - rewrite obj_get_set_other by discriminate.
    rewrite obj_get_set_other by discriminate.
    rewrite (obj_spread_get _ _ Htk), Hfixed; [reflexivity|].
    intros item Hitem H. symmetry in H.
    now apply aggregation_name_not_Aggregation in H; [|apply Hnames].
  - rewrite obj_get_set_other by discriminate.
    apply obj_get_set_same.
  - apply obj_get_set_same.
  - intros item Hitem.
    destruct (forEach_type_guards l
                {| queryTypeMapping := []; aggsTypeMapping := [];
                   totalCountTypeMapping := [] |} item Hnd Hitem)
      as [Hq Ha].
    fold (typeMappings l) in Hq, Ha. fold m in Hq, Ha.
    split; [|split].
    + rewrite (obj_spread_get _ _ Hqk), Hq. reflexivity.
    + rewrite (obj_spread_get _ _ Hak), Ha. reflexivity.
    + rewrite obj_get_set_other
        by apply aggregation_name_not_HistogramForString.
      rewrite obj_get_set_other
        by apply aggregation_name_not_HistogramForNumber.
      rewrite (obj_spread_get _ _ Htk).
      unfold m, typeMappings. rewrite forEach_total_guard by assumption.
      reflexivity.
  - intros T. rewrite obj_spread_keys. unfold m, typeMappings.
    rewrite (proj1 (forEach_type_keys T l _)). simpl. tauto.
  - intros T. rewrite obj_spread_keys. unfold m, typeMappings.
    rewrite (proj2 (forEach_type_keys T l _)). simpl. tauto.
Qed.

End TierAccessProperties.

(** C9, as stated, fails. With two entries of the type [subject], the
    guards under [Query] and [Aggregation] for that type are made for
    the index of the second entry: the first entry has no guard of its
    own. And for an entry whose type has the empty capitalised name, the
    aggregation name is [Aggregation] itself: the [_totalCount] guard
    takes the place of the object of tier-access guards, and
    [Aggregation] has no guard for the type. *)
Lemma tierAccessMiddleware_shared_type_counterexample :
  let first := {| IndexCfg.index := "gen3-dev-subject";
                  IndexCfg.type := "subject" |} in
  let second := {| IndexCfg.index := "gen3-prod-subject";
                   IndexCfg.type := "subject" |} in
  let unnamed := {| IndexCfg.index := "gen3-dev-case";
                    IndexCfg.type := "" |} in
  let run := fun l =>
    tierAccessMiddleware Demo.guard Demo.TierAccess Demo.HideNumber
      Demo.firstLetterUpperCase
      {| host := "http://localhost:9200"; indices := IndicesList l;
         configIndex := None |} in
  let guard_of := fun raw (item : IndexCfg.t) =>
    Demo.TierAccess {| isRawDataQuery := raw;
                       esType := IndexCfg.type item;
                       esIndex := IndexCfg.index item |} in
  (exists mw q a,
     run [first; second] = Ok mw
     /\ obj_get "Query" mw = Some q
     /\ obj_get "Aggregation" mw = Some a
     /\ obj_get "subject" q = Some (guard_of (Some true) second)
     /\ obj_get "subject" q <> Some (guard_of (Some true) first)
     /\ obj_get "subject" a = Some (guard_of None second)
     /\ obj_get "subject" a <> Some (guard_of None first))
  /\ (exists mw a,
        run [unnamed] = Ok mw
        /\ obj_get "Aggregation" mw = Some a
        /\ a = [("_totalCount", Demo.HideNumber true true)]
        /\ obj_get "" a <> Some (guard_of None unnamed)).
Proof.
  intros first second unnamed run guard_of. split.
  - eexists. eexists. eexists.
    split; [reflexivity|]. split; [reflexivity|]. split; [reflexivity|].
    split; [reflexivity|]. split; [discriminate|].
    split; [reflexivity|discriminate].
  - eexists. eexists.
    split; [reflexivity|]. split; [reflexivity|].
    split; [reflexivity|discriminate].
Qed.

(* ================================================================== *)
(** ** The definitions at work on the small deployment *)

Local Open Scope string_scope.

(** [initialize] fetches the mapping of each configured index, then asks
    the configuration index for the array fields; the field the mapping
    does not have and the index that is not configured are skipped. *)
Example initialize_run :
  initialize Demo.catalog Demo.builtin_truthy Demo.es_new
    {| engine := tt; calls := [] |}
  = (Ok {| config := config Demo.es_new;
           fieldTypes := fieldTypes Demo.es;
           arrayFields := arrayFields Demo.es |},
     {| engine := tt;
        calls :=
          [ CGetMapping "gen3-dev-subject" "subject";
            CGetMapping "gen3-dev-file" "file";
            CSearch
              (plain_search "gen3-dev-config" None
                 (VObj [("query",
                    VObj [("ids",
                      VObj [("values",
                        VArr [VStr "gen3-dev-subject";
                              VStr "gen3-dev-file"])])])])) ] |}).
Proof. reflexivity. Qed.

(** Three documents, two to the page: a search, two scrolls (the second
    one comes back empty) and the release of the cursor. *)
Example scrollQuery_run :
  scrollQuery Paging.client 2 6 Demo.es "gen3-dev-subject" "subject"
    VUndefined (Some ["gender"]) None Demo.w0
  = Some (Ok (map Hit._source
                [Demo.doc "s1" 30; Demo.doc "s2" 41; Demo.doc "s3" 52]),
          {| engine :=
               {| Paging.result_set :=
                    [Demo.doc "s1" 30; Demo.doc "s2" 41; Demo.doc "s3" 52];
                  Paging.cursor := None; Paging.page := 2;
                  Paging.released := 1 |};
             calls :=
               [ CSearch (scroll_search 2 "gen3-dev-subject" "subject"
                            (VObj []) (Some ["gender"]) None);
                 CScroll (Some "c1") "1m";
                 CScroll (Some "c1") "1m";
                 CClearScroll (Some "c1") ] |}).
Proof. reflexivity. Qed.

(** The name [constructor] is no configured index, and every object
    inherits a property under it. [scrollQuery] with no field asked for
    passes the validation and exports what the engine holds for that
    name; with a field asked for it answers that the field is invalid. *)
Example scrollQuery_inherited_name_run :
  scrollQuery Paging.client 2 6 Demo.es "constructor" "subject"
    VUndefined None None Demo.w0
  = Some (Ok (map Hit._source
                [Demo.doc "s1" 30; Demo.doc "s2" 41; Demo.doc "s3" 52]),
          {| engine :=
               {| Paging.result_set :=
                    [Demo.doc "s1" 30; Demo.doc "s2" 41; Demo.doc "s3" 52];
                  Paging.cursor := None; Paging.page := 2;
                  Paging.released := 1 |};
             calls :=
               [ CSearch (scroll_search 2 "constructor" "subject"
                            (VObj []) None None);
                 CScroll (Some "c1") "1m";
                 CScroll (Some "c1") "1m";
                 CClearScroll (Some "c1") ] |})
  /\ scrollQuery Paging.client 2 6 Demo.es "constructor" "subject"
       VUndefined (Some ["gender"]) None Demo.w0
     = Some (Throw (CodedError 400 (invalid_fields_message ["gender"])),
             Demo.w0).
Proof. split; reflexivity. Qed.

(** A document of the configuration index whose [_id] is the name
    [constructor] is not skipped, though no index has that name: its
    fields are looked up in the function [Object]. A field [Object] does
    not have is skipped; for one it has, such as [name], the push onto
    the inherited property throws. *)
Example add_array_doc_inherited_index_run :
  let ft := [("gen3-dev-file", [("file_id", Some "keyword")])] in
  let doc := fun field =>
    {| Hit._id := "constructor";
       Hit._source := VObj [("array", VArr [VStr field])] |} in
  add_array_doc Demo.builtin_truthy ft [] (doc "file_id") = Ok []
  /\ add_array_doc Demo.builtin_truthy ft [] (doc "name") = Throw TypeError.
Proof. split; reflexivity. Qed.

(** With [offset] undefined the sum [offset + size] is not a number and
    the guard of [getData] lets the request through; [filterData] then
    reads the offset as 0. *)
Example getData_undefined_offset_run :
  over_ceiling 10000 None (Some 20000) = false
  /\ calls (snd (getData Paging.client 10000 Demo.getFilterObj
                   Demo.getESSortBody Demo.es "gen3-dev-subject" "subject"
                   (Some ["gender"]) VUndefined VUndefined None (Some 20000)
                   Demo.w0))
     = [ CSearch
           (plain_search "gen3-dev-subject" (Some "subject")
              (VObj [("from", VNum 0); ("size", VNum 20000);
                     ("_source", VArr [VStr "gender"])])) ].
Proof. split; reflexivity. Qed.

Example invalid_fields_message_run :
  invalid_fields_message ["height"; "weight"]
  = "Invalid fields: " ++ dquote ++ "height" ++ dquote ++ ", "
      ++ dquote ++ "weight" ++ dquote.
Proof. reflexivity. Qed.

Example getESIndexByType_run :
  getESIndexByType Demo.es "file" = Ok "gen3-dev-file"
  /\ getESIndexByType Demo.es "case"
     = Throw (CodedError 400
                ("Invalid es type: " ++ dquote ++ "case" ++ dquote)).
Proof. split; reflexivity. Qed.

(* ================================================================== *)
(** ** The theorems at work on the small deployment *)

(** C1 at offset 9990 and size 20, against a ceiling of 10000. *)
Lemma getData_rejects_over_ceiling_witness :
  10000 < 9990 + 20
  /\ exists msg prefix : string,
       getData Paging.client 10000 Demo.getFilterObj Demo.getESSortBody
         Demo.es "gen3-dev-subject" "subject" (Some ["gender"])
         VUndefined VUndefined (Some 9990) (Some 20) Demo.w0
       = (Throw (UserInputError msg), Demo.w0)
       /\ is_InvalidInput (UserInputError msg) = true
       /\ msg = prefix
                ++ "please use download endpoint for large data queries instead."
       /\ calls (snd (getData Paging.client 10000 Demo.getFilterObj
                        Demo.getESSortBody Demo.es "gen3-dev-subject"
                        "subject" (Some ["gender"]) VUndefined VUndefined
                        (Some 9990) (Some 20) Demo.w0))
          = calls Demo.w0.
Proof.
  split; [reflexivity|].
  apply getData_rejects_over_ceiling. reflexivity.
Defined.

(** C10 at offset 123456789, with no filter and no sort. *)
Lemma getData_without_size_is_dispatched_witness :
  (if is_undefined VUndefined then Ok VUndefined
   else Demo.getFilterObj Demo.es "gen3-dev-subject" "subject" VUndefined)
  = Ok VUndefined
  /\ Demo.getESSortBody VUndefined Demo.es "gen3-dev-subject" = Ok None
  /\ over_ceiling 10000 (Some 123456789) None = false
  /\ exists b : obj value,
       obj_get "from" b = Some (VNum 123456789)
       /\ obj_get "size" b = None
       /\ getData Paging.client 10000 Demo.getFilterObj
            Demo.getESSortBody Demo.es "gen3-dev-subject" "subject"
            (Some ["gender"]) VUndefined VUndefined (Some 123456789) None
            Demo.w0
          = let p := plain_search "gen3-dev-subject" (Some "subject") (VObj b) in
            match search Paging.client p (engine Demo.w0) with
            | (Resolve body, e') =>
                (Ok (map Hit._source (Hits.hits (Body.hits body))),
                 {| engine := e'; calls := (calls Demo.w0 ++ [CSearch p])%list |})
            | (Reject msg, e') =>
                (Throw (JsError msg),
                 {| engine := e'; calls := (calls Demo.w0 ++ [CSearch p])%list |})
            end.
Proof.
  split; [reflexivity|]. split; [reflexivity|].
  apply (getData_without_size_is_dispatched Paging.client 10000
           Demo.getFilterObj Demo.getESSortBody Demo.es
           "gen3-dev-subject" "subject" (Some ["gender"]) VUndefined VUndefined
           (Some 123456789) Demo.w0 VUndefined None);
    reflexivity.
Defined.

(** C8 with no filter: the count of the three documents. *)
Lemma getCount_reads_total_witness :
  (if is_undefined VUndefined then Ok VUndefined
   else Demo.getFilterObj Demo.es "gen3-dev-subject" "subject" VUndefined)
  = Ok VUndefined
  /\ Demo.getESSortBody VUndefined Demo.es "gen3-dev-subject" = Ok None
  /\ getCount Paging.client Demo.getFilterObj Demo.getESSortBody
       Demo.es "gen3-dev-subject" "subject" VUndefined Demo.w0
     = (let (r, w') :=
          filterData Paging.client Demo.getFilterObj Demo.getESSortBody
            Demo.es "gen3-dev-subject" "subject" VUndefined (Some [])
            VUndefined None None Demo.w0 in
        (match r with
         | Ok result => Ok (Hits.total (Body.hits result))
         | Throw e => Throw e
         end, w'))
  /\ fst (getCount Paging.client Demo.getFilterObj Demo.getESSortBody
            Demo.es "gen3-dev-subject" "subject" VUndefined Demo.w0)
     = Ok 3.
Proof.
  split; [reflexivity|]. split; [reflexivity|].
  split; [|reflexivity].
  apply (getCount_reads_total Paging.client Demo.getFilterObj
           Demo.getESSortBody Demo.es "gen3-dev-subject" "subject"
           VUndefined Demo.w0 VUndefined None);
    reflexivity.
Defined.

(** C5 for four requested fields, two of them unknown. *)
Lemma scrollQuery_names_every_invalid_field_witness :
  "gen3-dev-subject" <> ""
  /\ "subject" <> ""
  /\ getESFields Demo.es (Some "gen3-dev-subject")
     = Ok (ForIndex (Some Demo.subject_fields))
  /\ (exists f, In f ["gender"; "height"; "age"; "weight"]
                /\ ~ In f (IndexFields.fields Demo.subject_fields))
  /\ exists msg : string,
       scrollQuery Paging.client 10000 0 Demo.es "gen3-dev-subject"
         "subject" VUndefined (Some ["gender"; "height"; "age"; "weight"])
         None Demo.w0
       = Some (Throw (CodedError 400 msg), Demo.w0)
       /\ is_InvalidInput (CodedError 400 msg) = true
       /\ msg = invalid_fields_message
                  (difference (Some ["gender"; "height"; "age"; "weight"])
                     (IndexFields.fields Demo.subject_fields))
       /\ forall f, In f ["gender"; "height"; "age"; "weight"] ->
            ~ In f (IndexFields.fields Demo.subject_fields) ->
            exists pre suf : string,
              msg = pre ++ dquote ++ f ++ dquote ++ suf.
Proof.
  assert (Hbad : exists f, In f ["gender"; "height"; "age"; "weight"]
                           /\ ~ In f (IndexFields.fields Demo.subject_fields)).
  { exists "height". split; [simpl; auto|].
    simpl. intros [H|[H|[]]]; discriminate H. }
  split; [discriminate|]. split; [discriminate|].
  split; [reflexivity|]. split; [exact Hbad|].
  apply (scrollQuery_names_every_invalid_field Paging.client 10000 0
           Demo.es "gen3-dev-subject" "subject" VUndefined
           ["gender"; "height"; "age"; "weight"] None Demo.w0
           Demo.subject_fields);
    [discriminate | discriminate | reflexivity | exact Hbad].
Defined.

(** C2 for three documents that arrive as a batch of two and a batch of
    one. *)
Lemma scrollQuery_returns_every_batch_witness :
  let bs := [ Demo.batch (Some "c1")
                [Demo.doc "s1" 30; Demo.doc "s2" 41];
              Demo.batch (Some "c2") [Demo.doc "s3" 52] ] in
  let last := Demo.batch (Some "c3") [] in
  "gen3-dev-subject" <> ""
  /\ "subject" <> ""
  /\ getESFields Demo.es (Some "gen3-dev-subject")
     = Ok (ForIndex (Some Demo.subject_fields))
  /\ difference (Some ["gender"]) (IndexFields.fields Demo.subject_fields)
     = []
  /\ Forall (fun b => Hits.hits (Body.hits b) <> []) bs
  /\ Hits.hits (Body.hits last) = []
  /\ (List.length bs + 2 <= 4)%nat
  /\ exists (w' : World Scripted.state) (new_calls : list Call),
       scrollQuery Scripted.client 2 4 Demo.es "gen3-dev-subject"
         "subject" VUndefined (Some ["gender"]) None
         {| engine := (map Resolve bs ++ [Resolve last])%list; calls := [] |}
       = Some (Ok (map Hit._source
                     [Demo.doc "s1" 30; Demo.doc "s2" 41;
                      Demo.doc "s3" 52]), w')
       /\ engine w' = []
       /\ calls w' = new_calls
       /\ List.filter is_clearScroll new_calls = [CClearScroll (Some "c3")].
Proof.
  intros bs last.
  assert (Hne : Forall (fun b => Hits.hits (Body.hits b) <> []) bs)
    by (repeat constructor; discriminate).
  split; [discriminate|]. split; [discriminate|].
  split; [reflexivity|]. split; [reflexivity|].
  split; [exact Hne|]. split; [reflexivity|].
  split; [apply le_n|].
  destruct (scrollQuery_returns_every_batch 2 Demo.es "gen3-dev-subject"
              "subject" VUndefined (Some ["gender"]) None
              Demo.subject_fields bs last [] [] 4)
    as (w' & new_calls & Hrun & _ & Hrest & Hcalls & _ & Hclear);
    [discriminate | discriminate | reflexivity | reflexivity | exact Hne
    | reflexivity | apply le_n |].
  exists w', new_calls. repeat split; assumption.
Defined.

(** C6 for the one registered array field of the file index. *)
Lemma isArrayField_registered_or_falsy_witness :
  let af := [("gen3-dev-file", [VStr "file_id"])] in
  arrayFields Demo.es = Some af
  /\ (isArrayField Demo.es "gen3-dev-file" "file_id" = Ok (VBool true)
      <-> exists arr, obj_get "gen3-dev-file" af = Some arr
                      /\ In (VStr "file_id") arr)
  /\ (forall arr, obj_get "gen3-dev-file" af = Some arr ->
        ~ In (VStr "file_id") arr ->
        isArrayField Demo.es "gen3-dev-file" "file_id" = Ok (VBool false))
  /\ (obj_get "gen3-dev-file" af = None ->
      inherited "gen3-dev-file" = false ->
      isArrayField Demo.es "gen3-dev-file" "file_id" = Ok VUndefined
      /\ truthy VUndefined = false)
  /\ (obj_get "gen3-dev-file" af = None ->
      inherited "gen3-dev-file" = true ->
      isArrayField Demo.es "gen3-dev-file" "file_id" = Throw TypeError).
Proof.
  intros af. split; [reflexivity|].
  apply (isArrayField_registered_or_falsy Demo.es af "gen3-dev-file"
           "file_id"). reflexivity.
Defined.

(** C7 for a name [Object.prototype] has, outside the two configured
    ones. *)
Lemma getESFields_unknown_index_undefined_witness :
  let l := [ {| IndexCfg.index := "gen3-dev-subject";
                IndexCfg.type := "subject" |};
             {| IndexCfg.index := "gen3-dev-file"; IndexCfg.type := "file" |} ] in
  let ft := [ ("gen3-dev-subject",
               [("gender", Some "keyword"); ("age", Some "long")]);
              ("gen3-dev-file", [("file_id", Some "keyword")]) ] in
  indices (config Demo.es) = IndicesList l
  /\ fieldTypes Demo.es = Some ft
  /\ (forall cfg, In cfg l -> obj_get (IndexCfg.index cfg) ft <> None)
  /\ ~ In "__proto__" (map IndexCfg.index l)
  /\ ~ In "toString" (map IndexCfg.index l)
  /\ getESFields Demo.es (Some "toString")
     = Ok (if inherited "toString" then PrototypeProperty "toString"
           else ForIndex None).
Proof.
  intros l ft.
  assert (Hinit : forall cfg, In cfg l ->
                              obj_get (IndexCfg.index cfg) ft <> None).
  { intros cfg [<-|[<-|[]]]; discriminate. }
  assert (Hproto : ~ In "__proto__" (map IndexCfg.index l)).
  { simpl. intros [H|[H|[]]]; discriminate H. }
  assert (Hnot : ~ In "toString" (map IndexCfg.index l)).
  { simpl. intros [H|[H|[]]]; discriminate H. }
  split; [reflexivity|]. split; [reflexivity|].
  split; [exact Hinit|]. split; [exact Hproto|]. split; [exact Hnot|].
  apply (getESFields_unknown_index_undefined Demo.es l ft "toString");
    [reflexivity | reflexivity | exact Hinit | exact Hproto | exact Hnot].
Defined.

(** C9 for the two configured types. *)
Lemma tierAccessMiddleware_guards_every_type_witness :
  let l := [ {| IndexCfg.index := "gen3-dev-subject";
                IndexCfg.type := "subject" |};
             {| IndexCfg.index := "gen3-dev-file"; IndexCfg.type := "file" |} ] in
  indices Demo.cfg = IndicesList l
  /\ NoDup (map IndexCfg.type l)
  /\ (forall item, In item l ->
        Demo.firstLetterUpperCase (IndexCfg.type item) <> "")
  /\ ~ In "__proto__" (map IndexCfg.type l)
  /\ exists mw : obj (obj Demo.guard),
       tierAccessMiddleware Demo.guard Demo.TierAccess
         Demo.HideNumber Demo.firstLetterUpperCase Demo.cfg = Ok mw
       /\ obj_get "SubjectAggregation" mw
          = Some [("_totalCount", Demo.HideNumber true true)]
       /\ obj_get "FileAggregation" mw
          = Some [("_totalCount", Demo.HideNumber true true)]
       /\ obj_get "HistogramForNumber" mw
          = Some [("histogram", Demo.HideNumber false true)].
Proof.
  intros l.
  assert (Hnd : NoDup (map IndexCfg.type l)).
  { simpl. constructor; [|constructor; [|constructor]].
    - simpl. intros [H|[]]; discriminate H.
    - intros []. }
  assert (Hnames : forall item, In item l ->
            Demo.firstLetterUpperCase (IndexCfg.type item) <> "").
  { intros item [<-|[<-|[]]]; discriminate. }
  assert (Hproto : ~ In "__proto__" (map IndexCfg.type l)).
  { simpl. intros [H|[H|[]]]; discriminate H. }
  split; [reflexivity|]. split; [exact Hnd|]. split; [exact Hnames|].
  split; [exact Hproto|].
  destruct (tierAccessMiddleware_guards_every_type Demo.guard
              Demo.TierAccess Demo.HideNumber
              Demo.firstLetterUpperCase Demo.cfg l eq_refl Hnd Hnames Hproto)
    as (mw & q & a & Hmw & _ & _ & Hnum & _ & Hitems & _ & _).
  exists mw. split; [exact Hmw|].
  split; [|split; [|exact Hnum]].
  - apply (Hitems {| IndexCfg.index := "gen3-dev-subject";
                     IndexCfg.type := "subject" |}). simpl. auto.
  - apply (Hitems {| IndexCfg.index := "gen3-dev-file";
                     IndexCfg.type := "file" |}). simpl. auto.
Defined.

(* ================================================================== *)
(** ** Further properties of the bounded search *)

Local Open Scope list_scope.

Lemma obj_set_fresh {A} (k : string) (a : A) (o : obj A) :
  ~ In k (obj_keys o) -> obj_set k a o = o ++ [(k, a)].
Proof.
  induction o as [|[k1 a1] rest IH]; simpl; intros Hn; [reflexivity|].
  destruct (String.eqb_spec k1 k) as [->|Hne]; [tauto|].
  rewrite IH by tauto. reflexivity.
Qed.

Lemma obj_get_app_fresh {A} (k : string) (a : A) (pre rest : obj A) :
  ~ In k (obj_keys pre) -> obj_get k (pre ++ (k, a) :: rest) = Some a.
Proof.
  induction pre as [|[k1 a1] pre IH]; simpl; intros Hn.
  - now rewrite String.eqb_refl.
  - destruct (String.eqb_spec k1 k) as [->|Hne]; [tauto|]. apply IH. tauto.
Qed.

(** On an object without repeated keys, the loop of [ES.query] is a
    filter: the entries that stay keep their order. *)
Lemma validate_body_filter (queryBody : obj value) :
  NoDup (obj_keys queryBody) ->
  validate_body queryBody
  = List.filter (fun kv => negb (is_nullish (snd kv))) queryBody.
Proof.
  intros Hnd. unfold validate_body.
  change (@nil (string * value))
    with (List.filter (fun kv : string * value => negb (is_nullish (snd kv)))
            []) at 1.
  assert (Hgen : forall rest pre,
             queryBody = pre ++ rest ->
             fold_left
               (fun validatedQueryBody key =>
                  match obj_get key queryBody with
                  | Some v =>
                      if is_nullish v then validatedQueryBody
                      else obj_set key v validatedQueryBody
                  | None => validatedQueryBody
                  end)
               (obj_keys rest)
               (List.filter (fun kv => negb (is_nullish (snd kv))) pre)
             = List.filter (fun kv => negb (is_nullish (snd kv))) queryBody).
  { induction rest as [|[k v] rest IH]; intros pre Heq.
    - rewrite app_nil_r in Heq. subst. reflexivity.
    - assert (Hfresh : ~ In k (obj_keys pre)).
      { rewrite Heq in Hnd. unfold obj_keys in Hnd. rewrite map_app in Hnd.
        simpl in Hnd. apply NoDup_remove_2 in Hnd. intros Hin. apply Hnd.
        apply in_or_app. now left. }
      assert (Hget : obj_get k queryBody = Some v)
        by (rewrite Heq; apply obj_get_app_fresh; exact Hfresh).
      change (obj_keys ((k, v) :: rest)) with (k :: obj_keys rest).
      cbn [fold_left]. rewrite Hget.
      rewrite <- (IH (pre ++ [(k, v)]))
        by (rewrite Heq, <- app_assoc; reflexivity).
      f_equal.
      rewrite filter_app. cbn [List.filter snd].
      destruct (is_nullish v); cbn [negb].
      + symmetry. apply app_nil_r.
      + apply obj_set_fresh. intros Hin. apply Hfresh.
        unfold obj_keys in *. apply in_map_iff in Hin.
        destruct Hin as ([k' v'] & Hk & Hin). simpl in Hk. subst k'.
        apply filter_In in Hin. apply in_map_iff.
        exists (k, v'). tauto. }
  apply (Hgen queryBody []). reflexivity.
Qed.

Section BoundedSearchMore.

Context {E : Type} (client : Client E) (SCROLL_PAGE_SIZE : Z).
Context (getFilterObj : ES -> string -> string -> value -> Result value).
Context (getESSortBody :
           value -> ES -> string -> Result (option (list (obj value)))).

Local Abbreviation filterData := (filterData client getFilterObj getESSortBody).
Local Abbreviation getCount := (getCount client getFilterObj getESSortBody).
Local Abbreviation getData :=
  (getData client SCROLL_PAGE_SIZE getFilterObj getESSortBody).

(** X1. [query] makes exactly one search. The body it sends holds the
    entries of [queryBody] that are neither undefined nor null, and only
    those (in their order, when no key repeats); it returns the body of
    the answer, and turns a rejection into [new Error(err.message)]. *)
Theorem query_sends_defined_entries
    (esIndex esType : string) (queryBody : obj value) (w : World E) :
  exists b : obj value,
    query client esIndex esType queryBody w
    = (let p := plain_search esIndex (Some esType) (VObj b) in
       match search client p (engine w) with
       | (Resolve body, e') =>
           (Ok body, {| engine := e'; calls := calls w ++ [CSearch p] |})
       | (Reject msg, e') =>
           (Throw (JsError msg),
            {| engine := e'; calls := calls w ++ [CSearch p] |})
       end)
    /\ (forall k v,
          obj_get k b = Some v
          <-> obj_get k queryBody = Some v /\ is_nullish v = false)
    /\ (NoDup (obj_keys queryBody) ->
        b = List.filter (fun kv => negb (is_nullish (snd kv))) queryBody).
Proof.
  exists (validate_body queryBody). split; [apply query_run|]. split.
  - intros k v. rewrite validate_body_get.
    destruct (obj_get k queryBody) as [v'|]; [|split; [discriminate|tauto]].
    destruct (is_nullish v') eqn:Hn; split.
    + discriminate.
    + intros [Heq Hv]. inversion Heq; subst. congruence.
    + intros Heq. inversion Heq; subst. tauto.
    + intros [Heq _]. exact Heq.
  - apply validate_body_filter.
Qed.

(** X2. A request with [offset + size] at or below the ceiling, the
    ceiling itself included, is sent on: once the translators have
    succeeded, [getData] makes one search whose body carries [from] and
    [size] as given and [_source] when fields are asked for, and returns
    the [_source] of the hits in the order of the answer. *)
Theorem getData_within_ceiling_is_dispatched
    (this : ES) (esIndex esType : string) (fields : option (list string))
    (filter sort : value) (o s : Z) (w : World E) (q : value)
    (sb : option (list (obj value))) :
  o + s <= SCROLL_PAGE_SIZE ->
  (if is_undefined filter then Ok VUndefined
   else getFilterObj this esIndex esType filter) = Ok q ->
  getESSortBody sort this esIndex = Ok sb ->
  exists b : obj value,
    obj_get "from" b = Some (VNum o)
    /\ obj_get "size" b = Some (VNum s)
    /\ obj_get "_source" b
       = match fields with
         | Some (f :: fs) => Some (VArr (map VStr (f :: fs)))
         | _ => None
         end
    /\ getData this esIndex esType fields filter sort (Some o) (Some s) w
       = let p := plain_search esIndex (Some esType) (VObj b) in
         match search client p (engine w) with
         | (Resolve body, e') =>
             (Ok (map Hit._source (Hits.hits (Body.hits body))),
              {| engine := e'; calls := calls w ++ [CSearch p] |})
         | (Reject msg, e') =>
             (Throw (JsError msg),
              {| engine := e'; calls := calls w ++ [CSearch p] |})
         end.
Proof.
  intros Hle Hq Hs.
  destruct (filterData_dispatch client getFilterObj getESSortBody this
              esIndex esType filter fields sort (Some o) (Some s) w q sb
              Hq Hs)
    as (qb & Hrun & Hfrom & Hsize & Hsrc).
  exists (validate_body qb). repeat split.
  - rewrite validate_body_get, Hfrom. reflexivity.
  - rewrite validate_body_get, Hsize. reflexivity.
  - rewrite validate_body_get, Hsrc.
    destruct fields as [[|f fs]|]; reflexivity.
  - unfold getData.
    assert (Hc : over_ceiling SCROLL_PAGE_SIZE (Some o) (Some s) = false)
      by (unfold over_ceiling; apply Z.ltb_ge; exact Hle).
    rewrite Hc. unfold bind. rewrite Hrun, query_run. cbv zeta.
    destruct (search client _ (engine w)) as [[body|msg] e']; reflexivity.
Qed.

(** X3. When a translator throws, its error is what [filterData],
    [getCount] and [getData] throw, and no call reaches the engine. The
    filter translator is asked first, and only for a filter that is not
    undefined; the sort translator is asked always. *)
Theorem translator_error_stops_the_search
    (this : ES) (esIndex esType : string) (fields : option (list string))
    (filter sort : value) (offset size : option Z) (w : World E)
    (e : Error) :
  (is_undefined filter = false
   /\ getFilterObj this esIndex esType filter = Throw e)
  \/ ((is_undefined filter = true
       \/ exists q, getFilterObj this esIndex esType filter = Ok q)
      /\ getESSortBody sort this esIndex = Throw e) ->
  filterData this esIndex esType filter fields sort offset size w
  = (Throw e, w)
  /\ (over_ceiling SCROLL_PAGE_SIZE offset size = false ->
      getData this esIndex esType fields filter sort offset size w
      = (Throw e, w)).
Proof.
  intros H.
  assert (Hfd : filterData this esIndex esType filter fields sort offset
                  size w = (Throw e, w)).
  { unfold filterData, bind, lift, ret.
    destruct H as [[Hu Hf]|[[Hu|[q Hq]] Hs]].
    - rewrite Hu, Hf. reflexivity.
    - rewrite Hu, Hs. reflexivity.
    - destruct (is_undefined filter); [|rewrite Hq]; rewrite Hs; reflexivity. }
  split; [exact Hfd|].
  intros Hc. unfold getData. rewrite Hc. unfold bind. rewrite Hfd.
  reflexivity.
Qed.

End BoundedSearchMore.

(* ================================================================== *)
(** ** Further properties of the metadata lookups *)

Lemma find_first_match {A} (f : A -> bool) (l1 l2 : list A) (x : A) :
  f x = true -> (forall c, In c l1 -> f c = false) ->
  find f (l1 ++ x :: l2) = Some x.
Proof.
  intros Hx. induction l1 as [|c l1 IH]; intros Hno; simpl.
  - now rewrite Hx.
  - rewrite (Hno c) by now left. apply IH. intros c' Hc'. apply Hno. now right.
Qed.

(** X4. [getESIndexByType] gives the index of the first configured
    entry that has the type; when none has it, it throws a [CodedError]
    with status 400 whose message quotes the type. An index it gives is
    always the index of a configured entry of that type. *)
Theorem getESIndexByType_first_entry
    (this : ES) (l : list IndexCfg.t) (esType : string) :
  indices (config this) = IndicesList l ->
  (forall l1 cfg l2,
     l = l1 ++ cfg :: l2 ->
     IndexCfg.type cfg = esType ->
     (forall c, In c l1 -> IndexCfg.type c <> esType) ->
     getESIndexByType this esType = Ok (IndexCfg.index cfg))
  /\ ((forall c, In c l -> IndexCfg.type c <> esType) ->
      getESIndexByType this esType
      = Throw (CodedError 400
                 ("Invalid es type: " ++ dquote ++ esType ++ dquote)%string)
      /\ is_InvalidInput
           (CodedError 400
              ("Invalid es type: " ++ dquote ++ esType ++ dquote)%string)
         = true)
  /\ (forall idx,
        getESIndexByType this esType = Ok idx ->
        exists cfg, In cfg l /\ IndexCfg.type cfg = esType
                    /\ IndexCfg.index cfg = idx).
Proof.
  intros Hl. unfold getESIndexByType. rewrite Hl. split; [|split].
  - intros l1 cfg l2 -> Ht Hno.
    rewrite (find_first_match _ l1 l2 cfg); [reflexivity| |].
    + apply String.eqb_eq. exact Ht.
    + intros c Hc. apply String.eqb_neq. now apply Hno.
  - intros Hno. split; [|reflexivity].
    destruct (find _ l) as [c|] eqn:Hf; [|reflexivity].
    apply find_some in Hf. destruct Hf as [Hin Heq].
    apply String.eqb_eq in Heq. now elim (Hno c Hin).
  - intros idx Hrun.
    destruct (find _ l) as [c|] eqn:Hf; [|discriminate].
    apply find_some in Hf. destruct Hf as [Hin Heq].
    apply String.eqb_eq in Heq. inversion Hrun; subst. eauto.
Qed.

(** What the loop of [getESFields] leaves in [res], given the field types
    of every configured index. *)
Lemma getESFields_loop_entries (ft : FieldTypes) :
  forall (l : list IndexCfg.t) (res : obj IndexFields.t),
    (forall cfg, In cfg l -> obj_get (IndexCfg.index cfg) ft <> None) ->
    exists res',
      getESFields_loop (Some ft) l res = Ok res'
      /\ (forall k, In k (obj_keys res')
                    <-> In k (obj_keys res) \/ In k (map IndexCfg.index l))
      /\ (forall k e,
            obj_get k res' = Some e ->
            obj_get k res = Some e
            \/ exists cfg types,
                 In cfg l /\ IndexCfg.index cfg = k
                 /\ obj_get k ft = Some types
                 /\ e = {| IndexFields.index := k;
                           IndexFields.type := IndexCfg.type cfg;
                           IndexFields.fields := obj_keys types |}).
Proof.
  induction l as [|cfg l IH]; intros res Hinit.
  - exists res. split; [reflexivity|]. split; [simpl; tauto|]. auto.
  - cbn [getESFields_loop].
    destruct (obj_get (IndexCfg.index cfg) ft) as [types|] eqn:Hget;
      [|exfalso; apply (Hinit cfg); [now left|assumption]].
    rewrite (obj_read_own _ _ _ Hget).
    destruct (IH (obj_set (IndexCfg.index cfg)
                    {| IndexFields.index := IndexCfg.index cfg;
                       IndexFields.type := IndexCfg.type cfg;
                       IndexFields.fields := obj_keys types |} res))
      as (res' & Hrun & Hkeys & Hentries).
    { intros c Hc. apply Hinit. now right. }
    exists res'. split; [exact Hrun|]. split.
    + intros k. rewrite Hkeys, obj_set_keys. simpl. intuition congruence.
    + intros k e He. destruct (Hentries k e He) as [Hold|Hnew].
      * destruct (string_dec k (IndexCfg.index cfg)) as [->|Hne].
        -- rewrite obj_get_set_same in Hold. inversion Hold; subst.
           right. exists cfg, types. repeat split; auto. now left.
        -- rewrite obj_get_set_other in Hold by assumption. now left.
      * destruct Hnew as (c & ty & Hin & Hidx & Hft & Hee).
        right. exists c, ty. repeat split; auto. now right.
Qed.

(** After initialization, the entry [getESFields] has for a configured
    index. *)
Lemma getESFields_configured_entry
    (this : ES) (l : list IndexCfg.t) (ft : FieldTypes) (esIndex : string) :
  indices (config this) = IndicesList l ->
  fieldTypes this = Some ft ->
  (forall cfg, In cfg l -> obj_get (IndexCfg.index cfg) ft <> None) ->
  In esIndex (map IndexCfg.index l) ->
  exists cfg types,
    In cfg l /\ IndexCfg.index cfg = esIndex
    /\ obj_get esIndex ft = Some types
    /\ getESFields this (Some esIndex)
       = Ok (ForIndex
               (Some {| IndexFields.index := esIndex;
                        IndexFields.type := IndexCfg.type cfg;
                        IndexFields.fields := obj_keys types |})).
Proof.
  intros Hl Hft Hinit Hin. unfold getESFields. rewrite Hl, Hft.
  destruct (getESFields_loop_entries ft l [] Hinit)
    as (res & Hrun & Hkeys & Hentries).
  rewrite Hrun. cbn [rbind].
  assert (Hk : In esIndex (obj_keys res)) by (apply Hkeys; now right).
  destruct (obj_get_in _ _ Hk) as [e He].
  destruct (Hentries esIndex e He) as [Hold|(cfg & types & Hc & Hi & Ht & ->)];
    [discriminate|].
  exists cfg, types. rewrite (obj_read_own _ _ _ He). auto.
Qed.

(** X5. After initialization, [getESFields] without an argument gives an
    object whose keys are the configured indices; with a configured
    index it gives that index's entry: the index itself, the names of
    its mapped fields, and the type a configured entry gives it. *)
Theorem getESFields_configured
    (this : ES) (l : list IndexCfg.t) (ft : FieldTypes) :
  indices (config this) = IndicesList l ->
  fieldTypes this = Some ft ->
  (forall cfg, In cfg l -> obj_get (IndexCfg.index cfg) ft <> None) ->
  (exists res,
     getESFields this None = Ok (AllIndices res)
     /\ forall k, In k (obj_keys res) <-> In k (map IndexCfg.index l))
  /\ forall esIndex,
       In esIndex (map IndexCfg.index l) ->
       exists cfg types,
         In cfg l /\ IndexCfg.index cfg = esIndex
         /\ obj_get esIndex ft = Some types
         /\ getESFields this (Some esIndex)
            = Ok (ForIndex
                    (Some {| IndexFields.index := esIndex;
                             IndexFields.type := IndexCfg.type cfg;
                             IndexFields.fields := obj_keys types |})).
Proof.
  intros Hl Hft Hinit. split.
  - unfold getESFields. rewrite Hl, Hft.
    destruct (getESFields_loop_entries ft l [] Hinit)
      as (res & Hrun & Hkeys & _).
    rewrite Hrun. exists res. split; [reflexivity|].
    intros k. rewrite Hkeys. simpl. tauto.
  - intros esIndex Hin.
    apply (getESFields_configured_entry this l ft esIndex Hl Hft Hinit Hin).
Qed.

(** X6. After initialization, an index that [getESIndexByType] gives for
    a type is one [getESFields] has an entry for, and that entry lists
    the mapped fields of that index: the lookup by type and the lookup
    of fields compose without an undefined in between. *)
Theorem index_of_type_has_fields
    (this : ES) (l : list IndexCfg.t) (ft : FieldTypes)
    (esType idx : string) :
  indices (config this) = IndicesList l ->
  fieldTypes this = Some ft ->
  (forall cfg, In cfg l -> obj_get (IndexCfg.index cfg) ft <> None) ->
  getESIndexByType this esType = Ok idx ->
  exists entry types,
    getESFields this (Some idx) = Ok (ForIndex (Some entry))
    /\ IndexFields.index entry = idx
    /\ obj_get idx ft = Some types
    /\ IndexFields.fields entry = obj_keys types.
Proof.
  intros Hl Hft Hinit Hrun.
  assert (Hin : In idx (map IndexCfg.index l)).
  { unfold getESIndexByType in Hrun. rewrite Hl in Hrun.
    destruct (find _ l) as [c|] eqn:Hf; [|discriminate].
    apply find_some in Hf. destruct Hf as [Hc _].
    inversion Hrun; subst. now apply in_map. }
  destruct (getESFields_configured_entry this l ft idx Hl Hft Hinit Hin)
    as (cfg & types & _ & _ & Htypes & Hget).
  eexists. exists types. split; [exact Hget|]. auto.
Qed.

(* ================================================================== *)
(** ** Further properties of the initialization *)


Lemma fold_set_keys {A} (k : string) :
  forall (rs : list (string * A)) (acc : obj A),
    In k (obj_keys (fold_left (fun o r => obj_set (fst r) (snd r) o) rs acc))
    <-> In k (obj_keys acc) \/ In k (map fst rs).
Proof.
  induction rs as [|r rs IH]; intros acc; cbn [fold_left map].
  - simpl. tauto.
  - rewrite IH, obj_set_keys. simpl. intuition congruence.
Qed.

(** A computation followed by a pure step. *)
Lemma bind_ret_world {E A B} (m : M E A) (f : A -> B) (w : World E) :
  snd (bind m (fun a => ret (f a)) w) = snd (m w).
Proof.
  unfold bind, ret. destruct (m w) as [[a|e] w']; reflexivity.
Qed.

Lemma bind_ret_result {E A B} (m : M E A) (f : A -> B) (w : World E) :
  fst (bind m (fun a => ret (f a)) w)
  = match fst (m w) with
    | Ok a => Ok (f a)
    | Throw e => Throw e
    end.
Proof.
  unfold bind, ret. destruct (m w) as [[a|e] w']; reflexivity.
Qed.

Section InitializationMore.

Context {E : Type} (client : Client E).
Context (builtin_truthy : string -> string -> option bool).

Local Abbreviation fetch_types :=
  (fun cfg : IndexCfg.t =>
     res <- _getESFieldsTypes client (IndexCfg.index cfg) (IndexCfg.type cfg) ;;
     ret (IndexCfg.index cfg, res)).
Local Abbreviation mapping_call :=
  (fun cfg : IndexCfg.t =>
     CGetMapping (IndexCfg.index cfg) (IndexCfg.type cfg)).

(** [_getESFieldsTypes] makes one call, whatever comes of it. *)
Lemma getESFieldsTypes_world (esIndex esType : string) (w : World E) :
  snd (_getESFieldsTypes client esIndex esType w)
  = {| engine := snd (getMapping client esIndex esType (engine w));
       calls := calls w ++ [CGetMapping esIndex esType] |}.
Proof.
  unfold _getESFieldsTypes, bind, call.
  destruct (getMapping client esIndex esType (engine w)) as [[body|m] e'];
    cbn [snd]; [|reflexivity].
  destruct (match obj_keys body with
            | [] => None
            | esIndexAlias :: _ =>
                match obj_get esIndexAlias body with
                | Some mappings => obj_get esType mappings
                | None => None
                end
            end); reflexivity.
Qed.

(** Its errors are [Error]s whose message starts by naming the index. *)
Lemma getESFieldsTypes_error (esIndex esType : string) (w : World E)
    (e : Error) :
  fst (_getESFieldsTypes client esIndex esType w) = Throw e ->
  exists detail : string,
    e = JsError (mapping_error_prefix esIndex ++ ": " ++ detail)%string.
Proof.
  unfold _getESFieldsTypes, bind, call, mapping_error_prefix.
  destruct (getMapping client esIndex esType (engine w)) as [[body|m] e'];
    cbn [fst].
  - destruct (match obj_keys body with
              | [] => None
              | esIndexAlias :: _ =>
                  match obj_get esIndexAlias body with
                  | Some mappings => obj_get esType mappings
                  | None => None
                  end
              end); cbn; intros H; inversion H.
    exists "TypeError"%string. reflexivity.
  - cbn. intros H. inversion H. exists m. reflexivity.
Qed.


Lemma promise_all_mapping_calls :
  forall (l : list IndexCfg.t) (w : World E),
    calls (snd (promise_all (map fetch_types l) w))
    = calls w ++ map mapping_call l.
Proof.
  induction l as [|cfg l IH]; intros w; cbn [map promise_all].
  - cbn. now rewrite app_nil_r.
  - destruct (bind (_getESFieldsTypes client (IndexCfg.index cfg)
                      (IndexCfg.type cfg))
                (fun res => ret (IndexCfg.index cfg, res)) w)
      as [r w1] eqn:H1.
    assert (Hw1 : calls w1 = calls w ++ [mapping_call cfg]).
    { apply (f_equal snd) in H1. rewrite bind_ret_world in H1.
      cbn [snd] in H1. rewrite <- H1, getESFieldsTypes_world.
      reflexivity. }
    specialize (IH w1).
    destruct (promise_all (map fetch_types l) w1) as [rs w2].
    cbn [snd] in *. rewrite IH, Hw1, <- app_assoc. reflexivity.
Qed.

Lemma promise_all_mapping_results :
  forall (l : list IndexCfg.t) (w : World E),
    match fst (promise_all (map fetch_types l) w) with
    | Ok rs => map fst rs = map IndexCfg.index l
    | Throw e =>
        exists cfg detail,
          In cfg l
          /\ e = JsError (mapping_error_prefix (IndexCfg.index cfg)
                          ++ ": " ++ detail)%string
    end.
Proof.
  induction l as [|cfg l IH]; intros w; cbn [map promise_all].
  - reflexivity.
  - destruct (bind (_getESFieldsTypes client (IndexCfg.index cfg)
                      (IndexCfg.type cfg))
                (fun res => ret (IndexCfg.index cfg, res)) w)
      as [r w1] eqn:H1.
    assert (Hr : match r with
                 | Ok a => fst a = IndexCfg.index cfg
                 | Throw e =>
                     exists detail,
                       e = JsError (mapping_error_prefix (IndexCfg.index cfg)
                                    ++ ": " ++ detail)%string
                 end).
    { apply (f_equal fst) in H1. rewrite bind_ret_result in H1.
      cbn [fst] in H1.
      pose proof (getESFieldsTypes_error (IndexCfg.index cfg)
                    (IndexCfg.type cfg) w) as He.
      destruct (fst (_getESFieldsTypes client (IndexCfg.index cfg)
                       (IndexCfg.type cfg) w)) as [res|e];
        subst r; [reflexivity|].
      apply He. reflexivity. }
    specialize (IH w1).
    destruct (promise_all (map fetch_types l) w1) as [rs w2].
    cbn [fst] in *.
    destruct r as [a|e].
    + destruct rs as [rs|e2].
      * cbn [map]. congruence.
      * destruct IH as (c & d & Hc & He). exists c, d. split; [now right|auto].
    + destruct Hr as [d Hd]. exists cfg, d. split; [now left|auto].
Qed.

(** X8. [_getMappingsForAllIndices] asks the engine for the mapping of
    every configured index, once each and in the order of the
    configuration, whether or not one of the answers is a failure. *)
Theorem getMappings_asks_for_every_index
    (this : ES) (l : list IndexCfg.t) (w : World E) :
  indices (config this) = IndicesList l ->
  calls (snd (_getMappingsForAllIndices client this w))
  = calls w ++ map mapping_call l.
Proof.
  intros Hl. unfold _getMappingsForAllIndices. rewrite Hl.
  rewrite bind_ret_world. apply promise_all_mapping_calls.
Qed.

(** What a successful [_getMappingsForAllIndices] returns. *)
Lemma getMappings_result (this : ES) (w w' : World E) (ft : FieldTypes) :
  _getMappingsForAllIndices client this w = (Ok ft, w') ->
  exists l,
    indices (config this) = IndicesList l
    /\ forall k, In k (obj_keys ft) <-> In k (map IndexCfg.index l).
Proof.
  unfold _getMappingsForAllIndices.
  destruct (indices (config this)) as [|n|l]; try discriminate.
  - destruct (n =? 0)%Z; discriminate.
  - intros Hrun. exists l. split; [reflexivity|].
    apply (f_equal fst) in Hrun. rewrite bind_ret_result in Hrun.
    pose proof (promise_all_mapping_results l w) as Hres.
    destruct (fst (promise_all (map fetch_types l) w)) as [rs|e];
      [|discriminate].
    cbn [fst] in Hrun. inversion Hrun; subst.
    intros k. rewrite fold_set_keys, Hres. simpl. tauto.
Qed.

(** A field that reads as truthy in the field types of an index has a
    non-empty type there, or is not there and bears a name of
    [Object.prototype]. *)
Lemma field_type_truthy_true (types : obj (option string)) (k : string) :
  field_type_truthy types k = true ->
  (exists t, obj_get k types = Some (Some t) /\ t <> ""%string)
  \/ (obj_get k types = None /\ inherited k = true).
Proof.
  unfold field_type_truthy, obj_read.
  destruct (obj_get k types) as [[t|]|]; try discriminate.
  - intros Ht. left. exists t. split; [reflexivity|].
    intros ->. discriminate.
  - destruct (inherited k); [|discriminate]. intros _. now right.
Qed.

(** The read [this.fieldTypes[index][field]] that goes with [index]:
    through the field types of the index when it has some, through a
    property of [Object.prototype] otherwise. *)
Local Abbreviation reads_for ft index type_truthy :=
  (match obj_get index ft with
   | Some types =>
       forall k : string,
         type_truthy k = Some true -> field_type_truthy types k = true
   | None => inherited index = true
   end).

(** Pushing one field keeps the object as [array_fields_mapped] wants
    it. *)
Lemma add_array_field_mapped (ft : FieldTypes)
    (type_truthy : string -> option bool) (index : string)
    (af af' : ArrayFields) (field : value) :
  reads_for ft index type_truthy ->
  array_fields_mapped ft af ->
  add_array_field type_truthy index af field = Ok af' ->
  array_fields_mapped ft af'.
Proof.
  intros Hreads Hinv. unfold add_array_field.
  destruct (type_truthy (to_str field)) as [[|]|] eqn:Hfield;
    [|intros H; inversion H; subst; exact Hinv|discriminate].
  assert (Hgood : forall l types,
             obj_get index ft = Some types ->
             inherited index = false ->
             (forall f, In f l ->
                (exists t, obj_get (to_str f) types = Some (Some t)
                           /\ t <> ""%string)
                \/ (obj_get (to_str f) types = None
                    /\ inherited (to_str f) = true)) ->
             array_fields_mapped ft (obj_set index (l ++ [field]) af)).
  { intros l types Hft Hown Hl idx arr Hget.
    destruct (string_dec idx index) as [->|Hother].
    - rewrite obj_get_set_same in Hget. inversion Hget; subst.
      split; [intros H; apply app_eq_nil in H; destruct H; discriminate|].
      split; [exact Hown|].
      exists types. split; [exact Hft|].
      intros f Hf. apply in_app_or in Hf. destruct Hf as [Hf|[<-|[]]].
      + now apply Hl.
      + apply field_type_truthy_true.
        rewrite Hft in Hreads. now apply Hreads.
    - rewrite obj_get_set_other in Hget by assumption. now apply Hinv. }
  unfold obj_read. destruct (obj_get index af) as [l|] eqn:Hl.
  - intros H. inversion H; subst.
    destruct (Hinv index l Hl) as (_ & Hown & types & Hft & Hall).
    now apply (Hgood l types).
  - destruct (inherited index) eqn:Hown; [discriminate|].
    intros H. inversion H; subst.
    destruct (obj_get index ft) as [types|] eqn:Hft; [|congruence].
    apply (Hgood [] types); auto. intros f [].
Qed.

Lemma add_array_fields_mapped (ft : FieldTypes)
    (type_truthy : string -> option bool) (index : string) :
  reads_for ft index type_truthy ->
  forall (fields : list value) (af af' : ArrayFields),
    array_fields_mapped ft af ->
    add_array_fields type_truthy index af fields = Ok af' ->
    array_fields_mapped ft af'.
Proof.
  intros Hreads. induction fields as [|f fields IH]; intros af af' Hinv Hrun;
    cbn [add_array_fields] in Hrun.
  - inversion Hrun; subst. exact Hinv.
  - destruct (add_array_field type_truthy index af f) as [af1|e] eqn:Hf;
      cbn [rbind] in Hrun; [|discriminate].
    apply (IH af1 af'); [|exact Hrun].
    apply (add_array_field_mapped ft type_truthy index af af1 f); assumption.
Qed.

Lemma add_array_docs_mapped (ft : FieldTypes) :
  forall (docs : list Hit.t) (af af' : ArrayFields),
    array_fields_mapped ft af ->
    add_array_docs builtin_truthy ft af docs = Ok af' ->
    array_fields_mapped ft af'.
Proof.
  induction docs as [|doc docs IH]; intros af af' Hinv Hrun;
    cbn [add_array_docs] in Hrun.
  - inversion Hrun; subst. exact Hinv.
  - destruct (add_array_doc builtin_truthy ft af doc) as [af1|e] eqn:Hdoc;
      cbn [rbind] in Hrun; [|discriminate].
    apply (IH af1 af'); [|exact Hrun].
    unfold add_array_doc, obj_read in Hdoc.
    destruct (obj_get (Hit._id doc) ft) as [types|] eqn:Hft.
    + destruct (doc_array doc) as [fields|]; [|discriminate].
      apply (add_array_fields_mapped ft _ (Hit._id doc)) with (3 := Hdoc);
        [|exact Hinv].
      rewrite Hft. intros k Hk. now inversion Hk.
    + destruct (inherited (Hit._id doc)) eqn:Hown.
      * destruct (doc_array doc) as [fields|]; [|discriminate].
        apply (add_array_fields_mapped ft _ (Hit._id doc)) with (3 := Hdoc);
          [|exact Hinv].
        rewrite Hft. exact Hown.
      * inversion Hdoc; subst. exact Hinv.
Qed.

Lemma getArrayFields_mapped (this : ES) (w : World E) (af : ArrayFields)
    (ft : FieldTypes) :
  fst (_getArrayFieldsFromConfigIndex client builtin_truthy this w) = Ok af ->
  fieldTypes this = Some ft ->
  array_fields_mapped ft af.
Proof.
  unfold _getArrayFieldsFromConfigIndex. intros Hrun Hft.
  assert (Hempty : array_fields_mapped ft []) by (intros idx arr H; discriminate).
  destruct (configIndex (config this)) as [ci|].
  - rewrite Hft in Hrun. unfold bind, call in Hrun.
    destruct (search client _ (engine w)) as [[body|m] e']; cbn in Hrun.
    + destruct (add_array_docs builtin_truthy ft []
                  (Hits.hits (Body.hits body)))
        as [af1|e] eqn:Hdocs; cbn in Hrun; [|discriminate].
      inversion Hrun; subst.
      apply (add_array_docs_mapped ft _ [] af Hempty Hdocs).
    + discriminate.
  - cbn in Hrun. inversion Hrun; subst. exact Hempty.
Qed.

(** X9. Whatever the configuration index holds, the object
    [_getArrayFieldsFromConfigIndex] returns registers array fields only
    for indices that have field types and whose name [Object.prototype]
    does not have, never registers an empty list, and registers only
    fields that read as truthy in that index's field types: a field with
    a non-empty type there, or a name that is not a field there and that
    the field types inherit from [Object.prototype] ([constructor],
    [toString], ...). With no configuration index it returns the empty
    object without a call. *)
Theorem getArrayFields_registers_mapped_fields
    (this : ES) (w : World E) (af : ArrayFields) :
  fst (_getArrayFieldsFromConfigIndex client builtin_truthy this w) = Ok af ->
  (configIndex (config this) = None ->
   af = []
   /\ snd (_getArrayFieldsFromConfigIndex client builtin_truthy this w) = w)
  /\ forall ft, fieldTypes this = Some ft ->
       forall (index : string) (arr : list value),
         obj_get index af = Some arr ->
         arr <> []
         /\ inherited index = false
         /\ exists types,
              obj_get index ft = Some types
              /\ forall field, In field arr ->
                   (exists t, obj_get (to_str field) types = Some (Some t)
                              /\ t <> ""%string)
                   \/ (obj_get (to_str field) types = None
                       /\ inherited (to_str field) = true).
Proof.
  intros Hrun. split.
  - intros Hci. unfold _getArrayFieldsFromConfigIndex in *.
    rewrite Hci in *. cbn in *. inversion Hrun. auto.
  - intros ft Hft. apply (getArrayFields_mapped this w af ft Hrun Hft).
Qed.

(** How a successful [initialize] came about. *)
Lemma initialize_ok (this this' : ES) (w w' : World E) :
  initialize client builtin_truthy this w = (Ok this', w') ->
  exists ft w1 af,
    _getMappingsForAllIndices client this w = (Ok ft, w1)
    /\ fst (_getArrayFieldsFromConfigIndex client builtin_truthy
              {| config := config this; fieldTypes := Some ft;
                 arrayFields := arrayFields this |} w1) = Ok af
    /\ this' = {| config := config this; fieldTypes := Some ft;
                  arrayFields := Some af |}.
Proof.
  unfold initialize, bind, ret. intros Hrun.
  destruct (_getMappingsForAllIndices client this w) as [[ft|e] w1];
    [|discriminate].
  cbv zeta in Hrun.
  destruct (_getArrayFieldsFromConfigIndex client builtin_truthy _ w1) as [[af|e] w2] eqn:Ha;
    [|discriminate].
  inversion Hrun; subst. exists ft, w1, af.
  split; [reflexivity|]. split; [|reflexivity].
  cbn [config fieldTypes arrayFields] in Ha. rewrite Ha. reflexivity.
Qed.

(** X10. When [initialize] succeeds, [config.indices] is a list, the
    configuration is unchanged, [fieldTypes] has exactly the configured
    indices for keys and [arrayFields] is set; so [getESFields] has an
    entry for every configured index. *)
Theorem initialize_makes_metadata_ready
    (this this' : ES) (w w' : World E) :
  initialize client builtin_truthy this w = (Ok this', w') ->
  exists l ft af,
    indices (config this) = IndicesList l
    /\ config this' = config this
    /\ fieldTypes this' = Some ft
    /\ arrayFields this' = Some af
    /\ (forall k, In k (obj_keys ft) <-> In k (map IndexCfg.index l))
    /\ forall esIndex, In esIndex (map IndexCfg.index l) ->
         exists entry,
           getESFields this' (Some esIndex) = Ok (ForIndex (Some entry))
           /\ IndexFields.index entry = esIndex.
Proof.
  intros Hrun.
  destruct (initialize_ok this this' w w' Hrun)
    as (ft & w1 & af & Hmap & _ & ->).
  destruct (getMappings_result this w w1 ft Hmap) as (l & Hl & Hkeys).
  exists l, ft, af.
  split; [exact Hl|]. split; [reflexivity|]. split; [reflexivity|].
  split; [reflexivity|]. split; [exact Hkeys|].
  - intros esIndex Hin.
    assert (Hinit : forall cfg, In cfg l ->
                      obj_get (IndexCfg.index cfg) ft <> None).
    { intros cfg Hc.
      assert (Hk : In (IndexCfg.index cfg) (obj_keys ft))
        by (apply Hkeys; now apply in_map).
      destruct (obj_get_in _ _ Hk) as [a Ha]. congruence. }
    destruct (getESFields_configured_entry
                {| config := config this; fieldTypes := Some ft;
                   arrayFields := Some af |} l ft esIndex Hl eq_refl
                Hinit Hin)
      as (cfg & types & _ & _ & _ & Hget).
    eexists. split; [exact Hget|reflexivity].
Qed.

(** X11. After a successful [initialize] (no index being configured
    under the name [__proto__]), a field for which [isArrayField]
    answers [true] belongs to an index that has field types in
    [getESFieldTypeMappingByIndex], where it reads as truthy: it has a
    non-empty type there, or it is no field of the index at all and
    bears a name the field types inherit from [Object.prototype]. *)
Theorem array_field_is_a_mapped_field
    (this this' : ES) (w w' : World E) (esIndex field : string) :
  initialize client builtin_truthy this w = (Ok this', w') ->
  (forall l, indices (config this) = IndicesList l ->
             ~ In "__proto__"%string (map IndexCfg.index l)) ->
  isArrayField this' esIndex field = Ok (VBool true) ->
  exists types,
    getESFieldTypeMappingByIndex this' esIndex = Ok (Own types)
    /\ ((exists t, obj_get field types = Some (Some t) /\ t <> ""%string)
        \/ (obj_get field types = None /\ inherited field = true)).
Proof.
  intros Hrun _ Harr.
  destruct (initialize_ok this this' w w' Hrun)
    as (ft & w1 & af & _ & Haf & ->).
  pose proof (getArrayFields_mapped _ w1 af ft Haf eq_refl) as Hinv.
  unfold isArrayField, obj_read in Harr. cbn [arrayFields] in Harr.
  destruct (obj_get esIndex af) as [arr|] eqn:Hget;
    [|destruct (inherited esIndex); discriminate].
  injection Harr as Hinc. apply includes_In in Hinc.
  destruct (Hinv esIndex arr Hget) as (_ & _ & types & Hft & Hall).
  exists types. split.
  - unfold getESFieldTypeMappingByIndex. cbn [fieldTypes].
    now rewrite (obj_read_own _ _ _ Hft).
  - exact (Hall (VStr field) Hinc).
Qed.

(** X12. When a mapping cannot be fetched, [initialize] throws what
    [_getMappingsForAllIndices] throws, an [Error] whose message starts
    by naming a configured index; every mapping has been asked for, and
    the array-field search is never made. *)
Theorem initialize_stops_at_failed_mapping
    (this : ES) (l : list IndexCfg.t) (w : World E) (e : Error) :
  indices (config this) = IndicesList l ->
  fst (_getMappingsForAllIndices client this w) = Throw e ->
  fst (initialize client builtin_truthy this w) = Throw e
  /\ calls (snd (initialize client builtin_truthy this w)) = calls w ++ map mapping_call l
  /\ exists cfg detail,
       In cfg l
       /\ e = JsError (mapping_error_prefix (IndexCfg.index cfg)
                       ++ ": " ++ detail)%string.
Proof.
  intros Hl Hfail.
  assert (Hcalls : calls (snd (_getMappingsForAllIndices client this w))
                   = calls w ++ map mapping_call l).
  { unfold _getMappingsForAllIndices. rewrite Hl.
    rewrite bind_ret_world. apply promise_all_mapping_calls. }
  unfold initialize, bind.
  destruct (_getMappingsForAllIndices client this w) as [[ft|e0] w1] eqn:Hm;
    cbn [fst snd] in *; [discriminate|].
  inversion Hfail; subst e0. split; [reflexivity|]. split; [exact Hcalls|].
  unfold _getMappingsForAllIndices in Hm. rewrite Hl in Hm.
  apply (f_equal fst) in Hm. rewrite bind_ret_result in Hm.
  pose proof (promise_all_mapping_results l w) as Hres.
  destruct (fst (promise_all (map fetch_types l) w)) as [rs|e1];
    cbn [fst] in Hm; [discriminate|].
  inversion Hm; subst. exact Hres.
Qed.

End InitializationMore.

(* ================================================================== *)
(** ** Further properties of the bulk export *)

Lemma getESFields_throws_TypeError (this : ES) (esIndex : option string)
    (e : Error) :
  getESFields this esIndex = Throw e -> e = TypeError.
Proof.
  unfold getESFields.
  destruct (indices (config this)) as [|n|l];
    try (intros H; inversion H; reflexivity).
  assert (Hloop : forall l res e',
             getESFields_loop (fieldTypes this) l res = Throw e' ->
             e' = TypeError).
  { clear. induction l as [|cfg l IH]; intros res e' H;
      cbn [getESFields_loop] in H; [discriminate|].
    destruct (fieldTypes this) as [ft|]; [|inversion H; reflexivity].
    destruct (obj_read (IndexCfg.index cfg) ft) as [types| |];
      [apply (IH _ _ H) | apply (IH _ _ H) | inversion H; reflexivity]. }
  destruct (getESFields_loop (fieldTypes this) l []) as [res|e'] eqn:Hl;
    cbn [rbind].
  - destruct esIndex as [i|]; [destruct (obj_read i res)|]; discriminate.
  - intros H. inversion H; subst. apply (Hloop _ _ _ Hl).
Qed.

(** Reading [fields] of what [getESFields] returns throws nothing but a
    [TypeError]. *)
Lemma answer_fields_throws_TypeError (this : ES) (esIndex : option string)
    (e : Error) :
  answer_fields (getESFields this esIndex) = Throw e -> e = TypeError.
Proof.
  destruct (getESFields this esIndex) as [[res|[entry|]|name]|e0] eqn:Hf;
    cbn [answer_fields]; intros H; inversion H; subst; try reflexivity.
  apply (getESFields_throws_TypeError _ _ _ Hf).
Qed.

Section ScrollExportMore.

Context {E : Type} (client : Client E) (SCROLL_PAGE_SIZE : Z).

Local Abbreviation scrollQuery := (scrollQuery client SCROLL_PAGE_SIZE).

(** What the loop throws is what a fetch throws: the wrapped error of
    the search, or the rejection of a scroll. *)
Lemma scroll_while_errors (p : Search.params) :
  forall (fuel : nat) (cb : option Body.t) (sid : option string)
         (total : list value) (bsz : nat) (w w' : World E) (e : Error),
    scroll_while client fuel p cb sid total bsz w = Some (Throw e, w') ->
    exists m, e = JsError m \/ e = Rejection m.
Proof.
  induction fuel as [|fuel IH]; intros cb sid total bsz w w' e Hrun;
    [discriminate|].
  cbn [scroll_while] in Hrun.
  destruct (match cb with None => true | Some _ => false end
            || (0 <? bsz)%nat); [|discriminate].
  destruct sid as [id|].
  - unfold await, bind, call, ret, throw in Hrun.
    destruct (scroll client (Some id) "1m" (engine w)) as [[b|m] e'].
    + apply (IH _ _ _ _ _ _ _ Hrun).
    + inversion Hrun. eauto.
  - unfold await_wrapped, bind, call, ret, throw in Hrun.
    destruct (search client p (engine w)) as [[b|m] e'].
    + apply (IH _ _ _ _ _ _ _ Hrun).
    + inversion Hrun. eauto.
Qed.

(** X13. A [CodedError] out of [scrollQuery] is one of its two
    validation errors, with status 400, and it is thrown before any call
    to the engine: the world is as it was. *)
Theorem scrollQuery_coded_error_precedes_engine
    (fuel : nat) (this : ES) (esIndex esType : string) (filter : value)
    (fields : option (list string)) (sort : option (list (obj value)))
    (w w' : World E) (code : Z) (msg : string) :
  scrollQuery fuel this esIndex esType filter fields sort w
  = Some (Throw (CodedError code msg), w') ->
  w' = w
  /\ code = 400%Z
  /\ (msg = "Invalid es index or es type name"%string
      \/ exists fieldsNotBelong,
           fieldsNotBelong <> []
           /\ msg = invalid_fields_message fieldsNotBelong).
Proof.
  unfold scrollQuery. intros Hrun.
  destruct ((esIndex =? "")%string || (esType =? "")%string).
  { inversion Hrun; subst. auto. }
  destruct (answer_fields (getESFields this (Some esIndex)))
    as [known|e] eqn:Hf.
  - destruct (0 <? List.length (difference fields known))%nat eqn:Hbad.
    + inversion Hrun; subst. split; [reflexivity|]. split; [reflexivity|].
      right. eexists. split; [|reflexivity].
      intros Hnil. rewrite Hnil in Hbad. discriminate.
    + destruct (scroll_while client fuel _ None None [] 0 w)
        as [[[[total sid]|e] w1]|] eqn:Hloop; [| |discriminate].
      * unfold await, bind, call, ret, throw in Hrun.
        destruct (clearScroll client sid (engine w1)) as [[u|m] e'];
          inversion Hrun.
      * inversion Hrun; subst.
        destruct (scroll_while_errors _ _ _ _ _ _ _ _ _ Hloop)
          as [m [Hm|Hm]]; discriminate.
  - inversion Hrun; subst.
    apply answer_fields_throws_TypeError in Hf. discriminate.
Qed.

(** The first turn of the loop sends the search: a run that ends has
    made that call first. *)
Lemma scroll_while_opens_with_search (p : Search.params) (fuel : nat)
    (w w' : World E) (r : Result (list value * option string)) :
  scroll_while client fuel p None None [] 0 w = Some (r, w') ->
  exists rest : list Call, calls w' = calls w ++ CSearch p :: rest.
Proof.
  destruct fuel as [|fuel]; [discriminate|].
  cbn [scroll_while orb]. unfold await_wrapped, bind, call, ret, throw.
  destruct (search client p (engine w)) as [[b|m] e'].
  - intros Hrun.
    destruct (scroll_while_only_fetches client p _ _ _ _ _ _ _ _ Hrun)
      as [ids Hids].
    exists (map (fetch_call p) ids). rewrite Hids. cbn [calls].
    rewrite <- app_assoc. reflexivity.
  - intros Hrun. inversion Hrun; subst. exists []. reflexivity.
Qed.

(** X14. For an index that is not configured, with non-empty index and
    type names and after initialization (no index being configured under
    the name [__proto__]), [scrollQuery] does not answer with an
    InvalidInput that names the index. When [Object.prototype] does not
    have the name, it throws a [TypeError] before any call to the
    engine. When [Object.prototype] has the name ([constructor],
    [toString], ...), [getESFields] gives the inherited property, whose
    [fields] is undefined: every requested field counts as unknown and
    is named in a 400 error; and with no field requested the validation
    is passed and the search for the unconfigured index is sent to the
    engine: a run that ends has made that call first, and when the
    engine rejects it the run ends there, with the error of the
    engine. *)
Theorem scrollQuery_unknown_index_TypeError
    (fuel : nat) (this : ES) (l : list IndexCfg.t) (ft : FieldTypes)
    (esIndex esType : string) (filter : value)
    (fields : option (list string)) (sort : option (list (obj value)))
    (w : World E) :
  esIndex <> ""%string ->
  esType <> ""%string ->
  indices (config this) = IndicesList l ->
  fieldTypes this = Some ft ->
  (forall cfg, In cfg l -> obj_get (IndexCfg.index cfg) ft <> None) ->
  ~ In "__proto__"%string (map IndexCfg.index l) ->
  ~ In esIndex (map IndexCfg.index l) ->
  let p := scroll_search SCROLL_PAGE_SIZE esIndex esType
             (if truthy filter then VObj [("query"%string, filter)]
              else VObj [])
             fields (option_map (map sort_token) sort) in
  (inherited esIndex = false ->
   scrollQuery fuel this esIndex esType filter fields sort w
   = Some (Throw TypeError, w)
   /\ is_InvalidInput TypeError = false)
  /\ (inherited esIndex = true ->
      forall f fs, fields = Some (f :: fs) ->
        scrollQuery fuel this esIndex esType filter fields sort w
        = Some (Throw (CodedError 400 (invalid_fields_message (f :: fs))), w))
  /\ (inherited esIndex = true ->
      fields = None \/ fields = Some [] ->
      forall r w',
        scrollQuery fuel this esIndex esType filter fields sort w
        = Some (r, w') ->
        exists rest : list Call, calls w' = calls w ++ CSearch p :: rest)
  /\ (inherited esIndex = true ->
      fields = None \/ fields = Some [] ->
      forall message e',
        search client p (engine w) = (Reject message, e') ->
        scrollQuery (S fuel) this esIndex esType filter fields sort w
        = Some (Throw (JsError message),
                {| engine := e'; calls := calls w ++ [CSearch p] |})).
Proof.
  intros Hi Ht Hl Hft Hinit _ Hnot p.
  assert (Hanswer : getESFields this (Some esIndex)
                    = Ok (if inherited esIndex then PrototypeProperty esIndex
                          else ForIndex None)).
  { unfold getESFields. rewrite Hl, Hft.
    destruct (getESFields_loop_other ft esIndex l [] Hinit Hnot)
      as (res' & Hrun & Hsame).
    rewrite Hrun. cbn [rbind]. rewrite (obj_read_absent _ _ Hsame).
    destruct (inherited esIndex); reflexivity. }
  apply String.eqb_neq in Hi, Ht.
  unfold scrollQuery. rewrite Hi, Ht, Hanswer. cbn [orb].
  split; [|split; [|split]].
  - intros Hno. rewrite Hno. split; reflexivity.
  - intros Hyes f fs ->. rewrite Hyes. cbn [answer_fields].
    rewrite difference_nothing_known. reflexivity.
  - intros Hyes Hnone r w'. rewrite Hyes. cbn [answer_fields].
    assert (Hd : difference fields [] = [])
      by (destruct Hnone as [->| ->]; reflexivity).
    rewrite Hd. cbn [List.length Nat.ltb Nat.leb]. fold p.
    destruct (scroll_while client fuel p None None [] 0 w)
      as [[[[total sid]|e] w1]|] eqn:Hloop; [| |discriminate].
    + destruct (scroll_while_opens_with_search p fuel w w1 _ Hloop)
        as [rest Hrest].
      unfold await, bind, call, ret, throw.
      destruct (clearScroll client sid (engine w1)) as [[u|m] e'];
        intros Hrun; inversion Hrun; subst; cbn [calls];
        exists (rest ++ [CClearScroll sid]); rewrite Hrest;
        rewrite <- app_assoc; reflexivity.
    + intros Hrun. inversion Hrun; subst.
      apply (scroll_while_opens_with_search p fuel w w' _ Hloop).
  - intros Hyes Hnone message e' Hreject. rewrite Hyes. cbn [answer_fields].
    assert (Hd : difference fields [] = [])
      by (destruct Hnone as [->| ->]; reflexivity).
    rewrite Hd. cbn [List.length Nat.ltb Nat.leb]. fold p.
    cbn [scroll_while orb].
    unfold await_wrapped, bind, call. rewrite Hreject. reflexivity.
Qed.

(** X15. When the engine rejects the search that opens the scroll,
    [scrollQuery] throws [new Error(err.message)] after that one call:
    no scroll and no [clearScroll] follow. *)
Theorem scrollQuery_rejected_search
    (fuel : nat) (this : ES) (esIndex esType : string) (filter : value)
    (fields : option (list string)) (sort : option (list (obj value)))
    (entry : IndexFields.t) (w : World E) (message : string) (e' : E) :
  esIndex <> ""%string ->
  esType <> ""%string ->
  getESFields this (Some esIndex) = Ok (ForIndex (Some entry)) ->
  difference fields (IndexFields.fields entry) = [] ->
  let p := scroll_search SCROLL_PAGE_SIZE esIndex esType
             (if truthy filter then VObj [("query"%string, filter)]
              else VObj [])
             fields (option_map (map sort_token) sort) in
  search client p (engine w) = (Reject message, e') ->
  scrollQuery (S fuel) this esIndex esType filter fields sort w
  = Some (Throw (JsError message),
          {| engine := e'; calls := calls w ++ [CSearch p] |}).
Proof.
  intros Hi Ht Hentry Hfields p Hreject. unfold scrollQuery.
  apply String.eqb_neq in Hi, Ht. rewrite Hi, Ht. cbn [orb].
  rewrite Hentry. cbn [answer_fields]. rewrite Hfields. cbn [List.length Nat.ltb Nat.leb]. fold p.
  cbn [scroll_while orb].
  unfold await_wrapped, bind, call. rewrite Hreject. reflexivity.
Qed.

(** While every answer holds hits, the loop goes on. *)
Lemma scroll_while_endless (p : Search.params) :
  (forall q e, exists b e',
      search client q e = (Resolve b, e') /\ Hits.hits (Body.hits b) <> []) ->
  (forall id ttl e, exists b e',
      scroll client id ttl e = (Resolve b, e')
      /\ Hits.hits (Body.hits b) <> []) ->
  forall (fuel : nat) (cb : option Body.t) (sid : option string)
         (total : list value) (bsz : nat) (w : World E),
    cb = None \/ (0 < bsz)%nat ->
    scroll_while client fuel p cb sid total bsz w = None.
Proof.
  intros Hsearch Hscroll.
  induction fuel as [|fuel IH]; intros cb sid total bsz w Hcont;
    [reflexivity|].
  cbn [scroll_while].
  assert (Hc : (match cb with None => true | Some _ => false end
                || (0 <? bsz)%nat) = true).
  { destruct Hcont as [->|Hb]; [reflexivity|].
    apply Nat.ltb_lt in Hb. rewrite Hb. apply orb_true_r. }
  rewrite Hc.
  destruct sid as [id|].
  - destruct (Hscroll (Some id) "1m"%string (engine w))
      as (b & e' & Hreply & Hne).
    unfold await, bind, call, ret. rewrite Hreply.
    apply IH. right. destruct (Hits.hits (Body.hits b));
      [congruence|simpl; lia].
  - destruct (Hsearch p (engine w)) as (b & e' & Hreply & Hne).
    unfold await_wrapped, bind, call, ret. rewrite Hreply.
    apply IH. right. destruct (Hits.hits (Body.hits b));
      [congruence|simpl; lia].
Qed.

(** X16. The loop of [scrollQuery] ends only on a batch without hits:
    against an engine whose every search and scroll is answered with at
    least one hit, a valid [scrollQuery] call does not return, however
    many iterations it is given. *)
Theorem scrollQuery_needs_an_empty_batch
    (this : ES) (esIndex esType : string) (filter : value)
    (fields : option (list string)) (sort : option (list (obj value)))
    (entry : IndexFields.t) :
  (forall q e, exists b e',
      search client q e = (Resolve b, e') /\ Hits.hits (Body.hits b) <> []) ->
  (forall id ttl e, exists b e',
      scroll client id ttl e = (Resolve b, e')
      /\ Hits.hits (Body.hits b) <> []) ->
  esIndex <> ""%string ->
  esType <> ""%string ->
  getESFields this (Some esIndex) = Ok (ForIndex (Some entry)) ->
  difference fields (IndexFields.fields entry) = [] ->
  forall (fuel : nat) (w : World E),
    scrollQuery fuel this esIndex esType filter fields sort w = None.
Proof.
  intros Hsearch Hscroll Hi Ht Hentry Hfields fuel w. unfold scrollQuery.
  apply String.eqb_neq in Hi, Ht. rewrite Hi, Ht. cbn [orb].
  rewrite Hentry. cbn [answer_fields]. rewrite Hfields. cbn [List.length Nat.ltb Nat.leb].
  rewrite (scroll_while_endless _ Hsearch Hscroll); auto.
Qed.

End ScrollExportMore.

(* ================================================================== *)
(** ** Further properties of the tier-access middleware *)

Lemma obj_get_some_in {A} (k : string) (a : A) (o : obj A) :
  obj_get k o = Some a -> In k (obj_keys o).
Proof.
  intros Hget. destruct (in_dec string_dec k (obj_keys o)) as [Hin|Hn]; auto.
  rewrite (obj_get_notin k o Hn) in Hget. discriminate.
Qed.

Section TierAccessMore.

Variable Resolver : Type.
Variable tierAccessResolver : TierArgs -> Resolver.
Variable hideNumberResolver : bool -> bool -> Resolver.
Variable firstLetterUpperCase : string -> string.

Local Abbreviation add_index :=
  (add_index Resolver tierAccessResolver hideNumberResolver
     firstLetterUpperCase).
Local Abbreviation typeMappings :=
  (typeMappings Resolver tierAccessResolver hideNumberResolver
     firstLetterUpperCase).
Local Abbreviation tierAccessMiddleware :=
  (tierAccessMiddleware Resolver tierAccessResolver hideNumberResolver
     firstLetterUpperCase).
Local Abbreviation aggregationName :=
  (fun item : IndexCfg.t =>
     (firstLetterUpperCase (IndexCfg.type item) ++ "Aggregation")%string).
Local Abbreviation no_mappings :=
  {| queryTypeMapping := @nil (string * Resolver);
     aggsTypeMapping := [];
     totalCountTypeMapping := [] |}.

(** The keys of [totalCountTypeMapping] are the aggregation names of the
    configured entries. *)
Lemma totalCount_keys (l : list IndexCfg.t) (k : string) :
  In k (obj_keys (totalCountTypeMapping _ (typeMappings l)))
  <-> exists item, In item l /\ k = aggregationName item.
Proof.
  split.
  - intros Hin.
    destruct (forEach_total_names Resolver tierAccessResolver
                hideNumberResolver firstLetterUpperCase k l no_mappings Hin)
      as [[]|H]; exact H.
  - intros (item & Hitem & ->).
    apply (obj_get_some_in _
             [("_totalCount"%string, hideNumberResolver true true)]).
    apply forEach_total_guard. exact Hitem.
Qed.

(** X17. The top-level keys of the exported object are [Query],
    [Aggregation], [HistogramForNumber], [HistogramForString] and the
    aggregation names of the configured types, and no other; [Query]
    comes first and [Aggregation] second. *)
Theorem tierAccessMiddleware_top_level_keys
    (cfg : EsConfig) (l : list IndexCfg.t) :
  indices cfg = IndicesList l ->
  exists (mw : obj (obj Resolver)) (rest : list string),
    tierAccessMiddleware cfg = Ok mw
    /\ obj_keys mw = "Query"%string :: "Aggregation"%string :: rest
    /\ forall k,
         In k (obj_keys mw)
         <-> k = "Query"%string \/ k = "Aggregation"%string
             \/ k = "HistogramForNumber"%string
             \/ k = "HistogramForString"%string
             \/ exists item, In item l /\ k = aggregationName item.
Proof.
  intros Hl. unfold tierAccessMiddleware. rewrite Hl.
  set (m := typeMappings l).
  set (q := obj_spread [] (queryTypeMapping _ m)).
  set (a := obj_spread [] (aggsTypeMapping _ m)).
  assert (Hhead : forall (o : obj (obj Resolver)) k v tl,
             obj_keys o = "Query"%string :: "Aggregation"%string :: tl ->
             exists tl', obj_keys (obj_set k v o)
                         = "Query"%string :: "Aggregation"%string :: tl').
  { intros o k v tl Ho.
    destruct o as [|[k1 v1] [|[k2 v2] o']]; try discriminate.
    cbn in Ho. inversion Ho; subst. cbn [obj_set].
    destruct ("Query" =? k)%string; [cbn; eauto|].
    destruct ("Aggregation" =? k)%string; cbn; eauto. }
  assert (Hspread : forall (t o : obj (obj Resolver)) tl,
             obj_keys o = "Query"%string :: "Aggregation"%string :: tl ->
             exists tl', obj_keys (obj_spread o t)
                         = "Query"%string :: "Aggregation"%string :: tl').
  { unfold obj_spread. induction t as [|[k v] t IH]; intros o tl Ho.
    - cbn. eauto.
    - cbn [fold_left fst snd].
      destruct (Hhead o k v tl Ho) as [tl' Htl']. apply (IH _ _ Htl'). }
  destruct (Hspread (totalCountTypeMapping _ m)
              (obj_set "Aggregation" a (obj_set "Query" q [])) [] eq_refl)
    as [tl1 H1].
  destruct (Hhead _ "HistogramForNumber"%string
              [("histogram"%string, hideNumberResolver false true)] _ H1)
    as [tl2 H2].
  destruct (Hhead _ "HistogramForString"%string
              [("histogram"%string, hideNumberResolver false true)] _ H2)
    as [tl3 H3].
  eexists. exists tl3. split; [reflexivity|]. split; [exact H3|].
  intros k. rewrite !obj_set_keys, obj_spread_keys, !obj_set_keys.
  unfold m. rewrite totalCount_keys. simpl. intuition.
Qed.


End TierAccessMore.

(* ================================================================== *)
(** ** The further properties at work on the small deployment *)

Local Open Scope string_scope.

(** X2 at the ceiling itself: offset 9990 and size 10 against 10000. *)
Lemma getData_within_ceiling_is_dispatched_witness :
  9990 + 10 <= 10000
  /\ (if is_undefined VUndefined then Ok VUndefined
      else Demo.getFilterObj Demo.es "gen3-dev-subject" "subject" VUndefined)
     = Ok VUndefined
  /\ Demo.getESSortBody VUndefined Demo.es "gen3-dev-subject" = Ok None
  /\ exists b : obj value,
       obj_get "from" b = Some (VNum 9990)
       /\ obj_get "size" b = Some (VNum 10)
       /\ obj_get "_source" b = Some (VArr [VStr "gender"])
       /\ calls (snd (getData Paging.client 10000 Demo.getFilterObj
                        Demo.getESSortBody Demo.es "gen3-dev-subject"
                        "subject" (Some ["gender"]) VUndefined VUndefined
                        (Some 9990) (Some 10) Demo.w0))
          = [CSearch (plain_search "gen3-dev-subject" (Some "subject")
                        (VObj b))].
Proof.
  assert (Hle : 9990 + 10 <= 10000) by (intros H; discriminate H).
  split; [exact Hle|]. split; [reflexivity|]. split; [reflexivity|].
  destruct (getData_within_ceiling_is_dispatched Paging.client 10000
              Demo.getFilterObj Demo.getESSortBody Demo.es
              "gen3-dev-subject" "subject" (Some ["gender"]) VUndefined
              VUndefined 9990 10 Demo.w0 VUndefined None Hle eq_refl eq_refl)
    as (b & Hfrom & Hsize & Hsrc & Hrun).
  exists b. split; [exact Hfrom|]. split; [exact Hsize|].
  split; [exact Hsrc|]. rewrite Hrun. reflexivity.
Defined.

(** X3 with a translator that refuses the filter. *)
Lemma translator_error_stops_the_search_witness :
  let filter := VObj [("=", VObj [("gender", VStr "female")])] in
  ((is_undefined filter = false
    /\ Demo.refuseFilter Demo.es "gen3-dev-subject" "subject" filter
       = Throw (UserInputError "Invalid filter"))
   \/ ((is_undefined filter = true
        \/ exists q, Demo.refuseFilter Demo.es "gen3-dev-subject" "subject"
                       filter = Ok q)
       /\ Demo.getESSortBody VUndefined Demo.es "gen3-dev-subject"
          = Throw (UserInputError "Invalid filter")))
  /\ getData Paging.client 10000 Demo.refuseFilter Demo.getESSortBody
       Demo.es "gen3-dev-subject" "subject" (Some ["gender"]) filter
       VUndefined (Some 0) (Some 10) Demo.w0
     = (Throw (UserInputError "Invalid filter"), Demo.w0).
Proof.
  intros filter.
  assert (H : (is_undefined filter = false
               /\ Demo.refuseFilter Demo.es "gen3-dev-subject" "subject"
                    filter = Throw (UserInputError "Invalid filter"))
              \/ ((is_undefined filter = true
                   \/ exists q, Demo.refuseFilter Demo.es "gen3-dev-subject"
                                  "subject" filter = Ok q)
                  /\ Demo.getESSortBody VUndefined Demo.es "gen3-dev-subject"
                     = Throw (UserInputError "Invalid filter")))
    by (left; split; reflexivity).
  split; [exact H|].
  apply (translator_error_stops_the_search Paging.client 10000
           Demo.refuseFilter Demo.getESSortBody Demo.es "gen3-dev-subject"
           "subject" (Some ["gender"]) filter VUndefined (Some 0) (Some 10)
           Demo.w0 (UserInputError "Invalid filter") H).
  reflexivity.
Defined.

(** X4 for the two configured types and for a type that is not. *)
Lemma getESIndexByType_first_entry_witness :
  let subject := {| IndexCfg.index := "gen3-dev-subject";
                    IndexCfg.type := "subject" |} in
  let file := {| IndexCfg.index := "gen3-dev-file"; IndexCfg.type := "file" |} in
  indices (config Demo.es) = IndicesList [subject; file]
  /\ getESIndexByType Demo.es "file" = Ok "gen3-dev-file"
  /\ getESIndexByType Demo.es "case"
     = Throw (CodedError 400 ("Invalid es type: " ++ dquote ++ "case" ++ dquote)).
Proof.
  intros subject file.
  destruct (getESIndexByType_first_entry Demo.es [subject; file] "file"
              eq_refl) as (Hfirst & _ & _).
  destruct (getESIndexByType_first_entry Demo.es [subject; file] "case"
              eq_refl) as (_ & Hnone & _).
  split; [reflexivity|]. split.
  - apply (Hfirst [subject] file []); [reflexivity|reflexivity|].
    intros c [<-|[]]. discriminate.
  - apply Hnone. intros c [<-|[<-|[]]]; discriminate.
Defined.

(** X5 for the two configured indices. *)
Lemma getESFields_configured_witness :
  let l := [ {| IndexCfg.index := "gen3-dev-subject";
                IndexCfg.type := "subject" |};
             {| IndexCfg.index := "gen3-dev-file"; IndexCfg.type := "file" |} ] in
  let ft := [ ("gen3-dev-subject",
               [("gender", Some "keyword"); ("age", Some "long")]);
              ("gen3-dev-file", [("file_id", Some "keyword")]) ] in
  indices (config Demo.es) = IndicesList l
  /\ fieldTypes Demo.es = Some ft
  /\ (forall cfg, In cfg l -> obj_get (IndexCfg.index cfg) ft <> None)
  /\ exists res,
       getESFields Demo.es None = Ok (AllIndices res)
       /\ forall k, In k (obj_keys res) <-> In k (map IndexCfg.index l).
Proof.
  intros l ft.
  assert (Hinit : forall cfg, In cfg l ->
                              obj_get (IndexCfg.index cfg) ft <> None).
  { intros cfg [<-|[<-|[]]]; discriminate. }
  split; [reflexivity|]. split; [reflexivity|]. split; [exact Hinit|].
  apply (getESFields_configured Demo.es l ft eq_refl eq_refl Hinit).
Defined.

(** X6 for the type [file]. *)
Lemma index_of_type_has_fields_witness :
  let l := [ {| IndexCfg.index := "gen3-dev-subject";
                IndexCfg.type := "subject" |};
             {| IndexCfg.index := "gen3-dev-file"; IndexCfg.type := "file" |} ] in
  let ft := [ ("gen3-dev-subject",
               [("gender", Some "keyword"); ("age", Some "long")]);
              ("gen3-dev-file", [("file_id", Some "keyword")]) ] in
  indices (config Demo.es) = IndicesList l
  /\ fieldTypes Demo.es = Some ft
  /\ (forall cfg, In cfg l -> obj_get (IndexCfg.index cfg) ft <> None)
  /\ getESIndexByType Demo.es "file" = Ok "gen3-dev-file"
  /\ exists entry types,
       getESFields Demo.es (Some "gen3-dev-file") = Ok (ForIndex (Some entry))
       /\ IndexFields.index entry = "gen3-dev-file"
       /\ obj_get "gen3-dev-file" ft = Some types
       /\ IndexFields.fields entry = obj_keys types.
Proof.
  intros l ft.
  assert (Hinit : forall cfg, In cfg l ->
                              obj_get (IndexCfg.index cfg) ft <> None).
  { intros cfg [<-|[<-|[]]]; discriminate. }
  split; [reflexivity|]. split; [reflexivity|]. split; [exact Hinit|].
  split; [reflexivity|].
  apply (index_of_type_has_fields Demo.es l ft "file" "gen3-dev-file"
           eq_refl eq_refl Hinit eq_refl).
Defined.


(** X8 against an engine that rejects every [getMapping]. *)
Lemma getMappings_asks_for_every_index_witness :
  indices (config Demo.es_new)
  = IndicesList [ {| IndexCfg.index := "gen3-dev-subject";
                     IndexCfg.type := "subject" |};
                  {| IndexCfg.index := "gen3-dev-file";
                     IndexCfg.type := "file" |} ]
  /\ calls (snd (_getMappingsForAllIndices Scripted.client Demo.es_new
                   {| engine := []; calls := [] |}))
     = [ CGetMapping "gen3-dev-subject" "subject";
         CGetMapping "gen3-dev-file" "file" ].
Proof.
  split; [reflexivity|].
  apply (getMappings_asks_for_every_index Scripted.client Demo.es_new _
           {| engine := []; calls := [] |} eq_refl).
Defined.

(** X9 for a configuration index that declares a field of the mapping
    and the name [constructor]: both are registered. *)
Lemma getArrayFields_registers_mapped_fields_witness :
  let ft := [ ("gen3-dev-subject",
               [("gender", Some "keyword"); ("age", Some "long")]);
              ("gen3-dev-file", [("file_id", Some "keyword")]) ] in
  let this := {| config := config Demo.es_new; fieldTypes := Some ft;
                 arrayFields := None |} in
  let w := {| engine := tt; calls := [] |} in
  let af := [("gen3-dev-file", [VStr "file_id"; VStr "constructor"])] in
  fst (_getArrayFieldsFromConfigIndex Demo.catalog_inherited
         Demo.builtin_truthy this w) = Ok af
  /\ forall (index : string) (arr : list value),
       obj_get index af = Some arr ->
       arr <> []
       /\ inherited index = false
       /\ exists types,
            obj_get index ft = Some types
            /\ forall field, In field arr ->
                 (exists t, obj_get (to_str field) types = Some (Some t)
                            /\ t <> "")
                 \/ (obj_get (to_str field) types = None
                     /\ inherited (to_str field) = true).
Proof.
  intros ft this w af. split; [reflexivity|].
  apply (getArrayFields_registers_mapped_fields Demo.catalog_inherited
           Demo.builtin_truthy this w af eq_refl).
  reflexivity.
Defined.

(** X10 for the catalog. *)
Lemma initialize_makes_metadata_ready_witness :
  let w := {| engine := tt; calls := [] |} in
  let this' := {| config := config Demo.es_new;
                  fieldTypes := fieldTypes Demo.es;
                  arrayFields := arrayFields Demo.es |} in
  fst (initialize Demo.catalog Demo.builtin_truthy Demo.es_new w) = Ok this'
  /\ exists l ft af,
       indices (config Demo.es_new) = IndicesList l
       /\ config this' = config Demo.es_new
       /\ fieldTypes this' = Some ft
       /\ arrayFields this' = Some af
       /\ (forall k, In k (obj_keys ft) <-> In k (map IndexCfg.index l))
       /\ forall esIndex, In esIndex (map IndexCfg.index l) ->
            exists entry,
              getESFields this' (Some esIndex) = Ok (ForIndex (Some entry))
              /\ IndexFields.index entry = esIndex.
Proof.
  intros w this'. split; [reflexivity|].
  apply (initialize_makes_metadata_ready Demo.catalog Demo.builtin_truthy
           Demo.es_new this' w
           (snd (initialize Demo.catalog Demo.builtin_truthy Demo.es_new w))).
  reflexivity.
Defined.

(** X11 for the name [constructor], which the configuration index
    declares for the file index and the mapping does not have. *)
Lemma array_field_is_a_mapped_field_witness :
  let w := {| engine := tt; calls := [] |} in
  let this' :=
    {| config := config Demo.es_new;
       fieldTypes := fieldTypes Demo.es;
       arrayFields :=
         Some [("gen3-dev-file", [VStr "file_id"; VStr "constructor"])] |} in
  fst (initialize Demo.catalog_inherited Demo.builtin_truthy Demo.es_new w)
  = Ok this'
  /\ (forall l, indices (config Demo.es_new) = IndicesList l ->
                ~ In "__proto__" (map IndexCfg.index l))
  /\ isArrayField this' "gen3-dev-file" "constructor" = Ok (VBool true)
  /\ exists types,
       getESFieldTypeMappingByIndex this' "gen3-dev-file" = Ok (Own types)
       /\ ((exists t, obj_get "constructor" types = Some (Some t) /\ t <> "")
           \/ (obj_get "constructor" types = None
               /\ inherited "constructor" = true)).
Proof.
  intros w this'.
  assert (Hproto : forall l, indices (config Demo.es_new) = IndicesList l ->
                             ~ In "__proto__" (map IndexCfg.index l)).
  { intros l Hl. inversion Hl; subst. simpl.
    intros [H|[H|[]]]; discriminate H. }
  split; [reflexivity|]. split; [exact Hproto|]. split; [reflexivity|].
  apply (array_field_is_a_mapped_field Demo.catalog_inherited
           Demo.builtin_truthy Demo.es_new this' w
           (snd (initialize Demo.catalog_inherited Demo.builtin_truthy
                   Demo.es_new w)));
    [reflexivity | exact Hproto | reflexivity].
Defined.

(** X12 against an engine that rejects every [getMapping]. *)
Lemma initialize_stops_at_failed_mapping_witness :
  let w := {| engine := []; calls := [] |} in
  let e := JsError (mapping_error_prefix "gen3-dev-subject" ++ ": no mapping") in
  indices (config Demo.es_new)
  = IndicesList [ {| IndexCfg.index := "gen3-dev-subject";
                     IndexCfg.type := "subject" |};
                  {| IndexCfg.index := "gen3-dev-file";
                     IndexCfg.type := "file" |} ]
  /\ fst (_getMappingsForAllIndices Scripted.client Demo.es_new w) = Throw e
  /\ fst (initialize Scripted.client Demo.builtin_truthy Demo.es_new w)
     = Throw e
  /\ calls (snd (initialize Scripted.client Demo.builtin_truthy
                   Demo.es_new w))
     = [ CGetMapping "gen3-dev-subject" "subject";
         CGetMapping "gen3-dev-file" "file" ].
Proof.
  intros w e. split; [reflexivity|]. split; [reflexivity|].
  destruct (initialize_stops_at_failed_mapping Scripted.client
              Demo.builtin_truthy Demo.es_new _ w e eq_refl eq_refl)
    as (Hthrow & Hcalls & _).
  split; [exact Hthrow|exact Hcalls].
Defined.

(** X13 for a call with an empty type name. *)
Lemma scrollQuery_coded_error_precedes_engine_witness :
  scrollQuery Paging.client 10000 5 Demo.es "gen3-dev-subject" ""
    VUndefined (Some ["height"]) None Demo.w0
  = Some (Throw (CodedError 400 "Invalid es index or es type name"), Demo.w0)
  /\ Demo.w0 = Demo.w0
  /\ 400 = 400
  /\ ("Invalid es index or es type name" = "Invalid es index or es type name"
      \/ exists fieldsNotBelong,
           fieldsNotBelong <> []
           /\ "Invalid es index or es type name"
              = invalid_fields_message fieldsNotBelong).
Proof.
  split; [reflexivity|].
  apply (scrollQuery_coded_error_precedes_engine Paging.client 10000 5
           Demo.es "gen3-dev-subject" "" VUndefined (Some ["height"]) None
           Demo.w0 Demo.w0 400 "Invalid es index or es type name").
  reflexivity.
Defined.

(** X14 for the name [constructor], outside the two configured ones. *)
Lemma scrollQuery_unknown_index_TypeError_witness :
  let l := [ {| IndexCfg.index := "gen3-dev-subject";
                IndexCfg.type := "subject" |};
             {| IndexCfg.index := "gen3-dev-file"; IndexCfg.type := "file" |} ] in
  let ft := [ ("gen3-dev-subject",
               [("gender", Some "keyword"); ("age", Some "long")]);
              ("gen3-dev-file", [("file_id", Some "keyword")]) ] in
  let p := scroll_search 10000 "constructor" "case" (VObj []) None None in
  "constructor" <> ""
  /\ "case" <> ""
  /\ indices (config Demo.es) = IndicesList l
  /\ fieldTypes Demo.es = Some ft
  /\ (forall cfg, In cfg l -> obj_get (IndexCfg.index cfg) ft <> None)
  /\ ~ In "__proto__" (map IndexCfg.index l)
  /\ ~ In "constructor" (map IndexCfg.index l)
  /\ inherited "constructor" = true
  /\ forall r w',
       scrollQuery Paging.client 10000 5 Demo.es "constructor" "case"
         VUndefined None None Demo.w0 = Some (r, w') ->
       exists rest : list Call,
         calls w' = (calls Demo.w0 ++ CSearch p :: rest)%list.
Proof.
  intros l ft p.
  assert (Hinit : forall cfg, In cfg l ->
                              obj_get (IndexCfg.index cfg) ft <> None).
  { intros cfg [<-|[<-|[]]]; discriminate. }
  assert (Hproto : ~ In "__proto__" (map IndexCfg.index l)).
  { simpl. intros [H|[H|[]]]; discriminate H. }
  assert (Hnot : ~ In "constructor" (map IndexCfg.index l)).
  { simpl. intros [H|[H|[]]]; discriminate H. }
  split; [discriminate|]. split; [discriminate|].
  split; [reflexivity|]. split; [reflexivity|].
  split; [exact Hinit|]. split; [exact Hproto|]. split; [exact Hnot|].
  split; [reflexivity|].
  destruct (scrollQuery_unknown_index_TypeError Paging.client 10000 5 Demo.es
              l ft "constructor" "case" VUndefined None None Demo.w0)
    as (_ & _ & Hsent & _);
    [discriminate | discriminate | reflexivity | reflexivity
    | exact Hinit | exact Hproto | exact Hnot |].
  apply Hsent; [reflexivity | left; reflexivity].
Defined.

(** X15 against an engine with nothing to answer. *)
Lemma scrollQuery_rejected_search_witness :
  let w := {| engine := @nil (Reply Body.t); calls := [] |} in
  let p := scroll_search 10000 "gen3-dev-subject" "subject" (VObj [])
             (Some ["gender"]) None in
  "gen3-dev-subject" <> ""
  /\ "subject" <> ""
  /\ getESFields Demo.es (Some "gen3-dev-subject")
     = Ok (ForIndex (Some Demo.subject_fields))
  /\ difference (Some ["gender"]) (IndexFields.fields Demo.subject_fields) = []
  /\ search Scripted.client p (engine w) = (Reject "script exhausted", [])
  /\ scrollQuery Scripted.client 10000 1 Demo.es "gen3-dev-subject" "subject"
       VUndefined (Some ["gender"]) None w
     = Some (Throw (JsError "script exhausted"),
             {| engine := []; calls := [CSearch p] |}).
Proof.
  intros w p.
  split; [discriminate|]. split; [discriminate|].
  split; [reflexivity|]. split; [reflexivity|]. split; [reflexivity|].
  apply (scrollQuery_rejected_search Scripted.client 10000 0 Demo.es
           "gen3-dev-subject" "subject" VUndefined (Some ["gender"]) None
           Demo.subject_fields w "script exhausted" []);
    [discriminate | discriminate | reflexivity | reflexivity | reflexivity].
Defined.

(** X16 against the engine that always answers with one hit. *)
Lemma scrollQuery_needs_an_empty_batch_witness :
  (forall q e, exists b e',
      search Demo.endless q e = (Resolve b, e')
      /\ Hits.hits (Body.hits b) <> [])
  /\ (forall id ttl e, exists b e',
        scroll Demo.endless id ttl e = (Resolve b, e')
        /\ Hits.hits (Body.hits b) <> [])
  /\ "gen3-dev-subject" <> ""
  /\ "subject" <> ""
  /\ getESFields Demo.es (Some "gen3-dev-subject")
     = Ok (ForIndex (Some Demo.subject_fields))
  /\ difference (Some ["gender"]) (IndexFields.fields Demo.subject_fields) = []
  /\ forall fuel w,
       scrollQuery Demo.endless 10000 fuel Demo.es "gen3-dev-subject"
         "subject" VUndefined (Some ["gender"]) None w = None.
Proof.
  assert (Hsearch : forall q e, exists b e',
             search Demo.endless q e = (Resolve b, e')
             /\ Hits.hits (Body.hits b) <> []).
  { intros q e. eexists. exists e. split; [reflexivity|discriminate]. }
  assert (Hscroll : forall id ttl e, exists b e',
             scroll Demo.endless id ttl e = (Resolve b, e')
             /\ Hits.hits (Body.hits b) <> []).
  { intros id ttl e. eexists. exists e. split; [reflexivity|discriminate]. }
  split; [exact Hsearch|]. split; [exact Hscroll|].
  split; [discriminate|]. split; [discriminate|].
  split; [reflexivity|]. split; [reflexivity|].
  apply (scrollQuery_needs_an_empty_batch Demo.endless 10000 Demo.es
           "gen3-dev-subject" "subject" VUndefined (Some ["gender"]) None
           Demo.subject_fields Hsearch Hscroll);
    [discriminate | discriminate | reflexivity | reflexivity].
Defined.

(** X17 for the two configured types. *)
Lemma tierAccessMiddleware_top_level_keys_witness :
  indices Demo.cfg
  = IndicesList [ {| IndexCfg.index := "gen3-dev-subject";
                     IndexCfg.type := "subject" |};
                  {| IndexCfg.index := "gen3-dev-file";
                     IndexCfg.type := "file" |} ]
  /\ exists (mw : obj (obj Demo.guard)) (rest : list string),
       tierAccessMiddleware Demo.guard Demo.TierAccess Demo.HideNumber
         Demo.firstLetterUpperCase Demo.cfg = Ok mw
       /\ obj_keys mw = "Query" :: "Aggregation" :: rest.
Proof.
  split; [reflexivity|].
  destruct (tierAccessMiddleware_top_level_keys Demo.guard Demo.TierAccess
              Demo.HideNumber Demo.firstLetterUpperCase Demo.cfg _ eq_refl)
    as (mw & rest & Hmw & Hkeys & _).
  exists mw, rest. split; [exact Hmw|exact Hkeys].
Defined.

